(** * Scoring and aggregation engine of the scorecard service

    A shallow embedding of the two Python modules of the repository:

    - [data-ingestion/new_ingestor.py]: [load_scoring_config],
      [calculate_final_score], [update_final_score] and the scoring step
      of [run_ingestion_workflow];
    - [api/api.py]: [load_scoring_config], [calculate_max_score] and
      [get_latest_scan].

    Python exceptions are values of an error monad, Python dictionaries are
    finite maps, the database tables are lists of rows, and the numbers of
    the scoring code are reached through an interface with two instances:
    Python's own [int]/[float] tower over IEEE binary64, and exact
    rationals. *)

From Stdlib Require Import ZArith QArith Lqa Floats Ascii String List Lia Bool Permutation.
From stdpp Require Import base option list gmap strings.

Local Open Scope Z_scope.

(** ** Exceptions *)

(** The exceptions the embedded functions can raise. [HTTPException] carries
    the status code given to FastAPI. *)
Inductive exn : Type :=
  | KeyError (k : string)
  | FileNotFoundError
  | OverflowError
  | HTTPException (status_code : Z).

Inductive result (A : Type) : Type :=
  | Ok (a : A)
  | Raise (e : exn).
Arguments Ok {A} a.
Arguments Raise {A} e.

#[global] Instance result_ret : MRet result := fun A a => Ok a.
#[global] Instance result_bind : MBind result := fun A B k m =>
  match m with
  | Ok a => k a
  | Raise e => Raise e
  end.
#[global] Instance result_fmap : FMap result := fun A B f m =>
  match m with
  | Ok a => Ok (f a)
  | Raise e => Raise e
  end.

(** [d[k]] on a dictionary: the value, or [KeyError]. *)
Definition subscript {A : Type} (k : string) (v : option A) : result A :=
  match v with
  | Some a => Ok a
  | None => Raise (KeyError k)
  end.

(** [d.get(k, default)]. *)
Definition get_default {A : Type} (v : option A) (default : A) : A :=
  match v with
  | Some a => a
  | None => default
  end.

(** ** The numbers of the scoring code

    The scoring functions only add, subtract, multiply, compare, round and
    parse. [py_float] is the builtin [float(s)] on a string ([None] stands
    for [ValueError]) and [py_round2] is the builtin [round(x, 2)]. *)
Class PyNum (N : Type) : Type := {
  of_int : Z -> N;
  of_float_lit : Z -> N;
  py_add : N -> N -> result N;
  py_sub : N -> N -> result N;
  py_mul : N -> N -> result N;
  py_eqb : N -> N -> bool;
  py_ltb : N -> N -> bool;
  py_round2 : N -> N;
  py_float : string -> option N
}.

(** [max(a, b)]: the first maximal argument. *)
Definition py_max {N : Type} `{PyNum N} (a b : N) : N :=
  if py_ltb a b then b else a.

(** *** Reading a float literal

    The ASCII grammar of [float(s)]: surrounding white space, a sign,
    [inf], [infinity] or [nan] in any case, or decimal digits with single
    underscores between them, a point and an exponent. Digits and spaces
    outside ASCII, which [float] also accepts, are not read. *)

Inductive literal : Type :=
  | LitNum (neg : bool) (m : Z) (e10 : Z)
  | LitInf (neg : bool)
  | LitNan.

Definition digit_of (c : ascii) : option Z :=
  let n := Z.of_nat (nat_of_ascii c) in
  if (48 <=? n) && (n <=? 57) then Some (n - 48) else None.

Definition is_space (c : ascii) : bool :=
  let n := Z.of_nat (nat_of_ascii c) in
  (n =? 32) || ((9 <=? n) && (n <=? 13)).

Definition lower (c : ascii) : ascii :=
  let n := nat_of_ascii c in
  if (65 <=? Z.of_nat n) && (Z.of_nat n <=? 90) then ascii_of_nat (n + 32) else c.

Fixpoint lstrip (s : list ascii) : list ascii :=
  match s with
  | c :: s' => if is_space c then lstrip s' else s
  | [] => []
  end.

Definition strip (s : list ascii) : list ascii :=
  rev (lstrip (rev (lstrip s))).

(** The rest of a digit part, after its first digit: digits, each
    optionally preceded by one underscore. *)
Fixpoint digits_tail (acc : Z) (n : Z) (s : list ascii) : Z * Z * list ascii :=
  match s with
  | c :: s' =>
      match digit_of c with
      | Some d => digits_tail (10 * acc + d) (n + 1) s'
      | None =>
          if Ascii.eqb c "_" then
            match s' with
            | c2 :: s'' =>
                match digit_of c2 with
                | Some d => digits_tail (10 * acc + d) (n + 1) s''
                | None => (acc, n, s)
                end
            | [] => (acc, n, s)
            end
          else (acc, n, s)
      end
  | [] => (acc, n, s)
  end.

(** A digit part continuing the value [acc]: the new value, the number of
    digits read, and the rest. *)
Definition digitpart (acc : Z) (s : list ascii) : option (Z * Z * list ascii) :=
  match s with
  | c :: s' =>
      match digit_of c with
      | Some d => Some (digits_tail (10 * acc + d) 1 s')
      | None => None
      end
  | [] => None
  end.

Definition read_sign (s : list ascii) : bool * list ascii :=
  match s with
  | c :: s' =>
      if Ascii.eqb c "-" then (true, s')
      else if Ascii.eqb c "+" then (false, s')
      else (false, s)
  | [] => (false, s)
  end.

(** The exponent part, when there is one; [None] when it is malformed. *)
Definition read_exponent (s : list ascii) : option Z :=
  match s with
  | [] => Some 0
  | c :: s' =>
      if Ascii.eqb (lower c) "e" then
        let '(neg, s1) := read_sign s' in
        match digitpart 0 s1 with
        | Some (e, _, []) => Some (if neg then - e else e)
        | _ => None
        end
      else None
  end.

(** Mantissa digits and the number of them after the point. *)
Definition read_mantissa (s : list ascii) : option (Z * Z * list ascii) :=
  match digitpart 0 s with
  | Some (m, _, rest) =>
      match rest with
      | c :: rest' =>
          if Ascii.eqb c "." then
            match digitpart m rest' with
            | Some (m', k, rest'') => Some (m', k, rest'')
            | None => Some (m, 0, rest')
            end
          else Some (m, 0, rest)
      | [] => Some (m, 0, [])
      end
  | None =>
      match s with
      | c :: rest' => if Ascii.eqb c "." then digitpart 0 rest' else None
      | [] => None
      end
  end.

Definition read_literal (s : string) : option literal :=
  let '(neg, body) := read_sign (strip (list_ascii_of_string s)) in
  let word := string_of_list_ascii (map lower body) in
  if String.eqb word "inf" || String.eqb word "infinity" then Some (LitInf neg)
  else if String.eqb word "nan" then Some LitNan
  else
    match read_mantissa body with
    | Some (m, k, rest) =>
        match read_exponent rest with
        | Some e => Some (LitNum neg m (e - k))
        | None => None
        end
    | None => None
    end.

(** *** Python's [int] and [float] over IEEE binary64 *)

Inductive pynum : Type :=
  | PyInt (z : Z)
  | PyFloat (f : float).

(** The double nearest to [m / d] for [0 <= m] and [0 < d], ties to even,
    with the sign [neg]. *)
Definition nearest_quotient (neg : bool) (m d : Z) : float :=
  match m, d with
  | Zpos pm, Zpos pd =>
      SF2Prim (SFdiv prec emax (S754_finite neg pm 0) (S754_finite false pd 0))
  | _, _ => SF2Prim (S754_zero neg)
  end.

(** The double nearest to the integer [z], negated when [neg]; a zero
    result takes the sign [neg]. *)
Definition nearest_int (neg : bool) (z : Z) : float :=
  SF2Prim (binary_normalize prec emax (if neg then - z else z) 0 neg).

Definition float_of_literal (l : literal) : float :=
  match l with
  | LitNum neg m e10 =>
      if 0 <=? e10 then nearest_int neg (m * 10 ^ e10)
      else nearest_quotient neg m (10 ^ (- e10))
  | LitInf neg => if neg then neg_infinity else infinity
  | LitNan => nan
  end.

(** [float(z)] on an int, as the mixed operations apply it. *)
Definition float_of_int (z : Z) : result float :=
  let f := nearest_int false z in
  if is_infinity f then Raise OverflowError else Ok f.

(** The exact comparison of a float with an int; [None] for a NaN. *)
Definition float_cmp_int (f : float) (z : Z) : option comparison :=
  match Prim2SF f with
  | S754_nan => None
  | S754_zero _ => Some (0 ?= z)
  | S754_infinity s => Some (if s then Lt else Gt)
  | S754_finite s m e =>
      let v := cond_Zopp s (Zpos m) in
      Some (if 0 <=? e then v * 2 ^ e ?= z else v ?= z * 2 ^ (- e))
  end.

Definition lift_float (op : float -> float -> float) (a b : pynum)
    (op_int : Z -> Z -> Z) : result pynum :=
  match a, b with
  | PyInt x, PyInt y => Ok (PyInt (op_int x y))
  | PyFloat x, PyFloat y => Ok (PyFloat (op x y))
  | PyInt x, PyFloat y => x' ← float_of_int x; Ok (PyFloat (op x' y))
  | PyFloat x, PyInt y => y' ← float_of_int y; Ok (PyFloat (op x y'))
  end.

Definition pynum_eqb (a b : pynum) : bool :=
  match a, b with
  | PyInt x, PyInt y => x =? y
  | PyFloat x, PyFloat y => PrimFloat.eqb x y
  | PyFloat x, PyInt y | PyInt y, PyFloat x =>
      match float_cmp_int x y with
      | Some Eq => true
      | _ => false
      end
  end.

Definition pynum_ltb (a b : pynum) : bool :=
  match a, b with
  | PyInt x, PyInt y => x <? y
  | PyFloat x, PyFloat y => PrimFloat.ltb x y
  | PyFloat x, PyInt y =>
      match float_cmp_int x y with
      | Some Lt => true
      | _ => false
      end
  | PyInt y, PyFloat x =>
      match float_cmp_int x y with
      | Some Gt => true
      | _ => false
      end
  end.

(** Rounding [num / den] to an integer, ties to even ([0 < den]). *)
Definition round_half_even (num den : Z) : Z :=
  let q := num / den in
  match 2 * (num mod den) ?= den with
  | Lt => q
  | Gt => q + 1
  | Eq => if Z.even q then q else q + 1
  end.

(** [round(x, 2)] on a float: the exact value of [x] is rounded to two
    decimals, ties to even, and the nearest double is returned; NaN,
    infinities and zeros round to themselves. *)
Definition float_round2 (x : float) : float :=
  match Prim2SF x with
  | S754_finite s m e =>
      if 0 <=? e then x
      else nearest_quotient s (round_half_even (Zpos m * 100) (2 ^ (- e))) 100
  | _ => x
  end.

Definition pynum_round2 (a : pynum) : pynum :=
  match a with
  | PyInt z => PyInt z
  | PyFloat f => PyFloat (float_round2 f)
  end.

#[global] Instance binary64 : PyNum pynum := {
  of_int z := PyInt z;
  of_float_lit z := PyFloat (nearest_int false z);
  py_add a b := lift_float PrimFloat.add a b Z.add;
  py_sub a b := lift_float PrimFloat.sub a b Z.sub;
  py_mul a b := lift_float PrimFloat.mul a b Z.mul;
  py_eqb := pynum_eqb;
  py_ltb := pynum_ltb;
  py_round2 := pynum_round2;
  py_float s := (fun l => PyFloat (float_of_literal l)) <$> read_literal s
}.

(** *** Exact rationals

    The same interface over [Q]: every operation is exact and none raises.
    There is no infinity and no NaN, so those two spellings do not parse. *)

Definition Q_of_literal (l : literal) : option Q :=
  match l with
  | LitNum neg m e10 =>
      let sm := if neg then - m else m in
      Some (if 0 <=? e10 then inject_Z (sm * 10 ^ e10)
            else Qmake sm (Z.to_pos (10 ^ (- e10))))
  | LitInf _ | LitNan => None
  end.

Definition Q_round2 (x : Q) : Q :=
  Qmake (round_half_even (Qnum x * 100) (Zpos (Qden x))) 100.

#[global] Instance exact : PyNum Q := {
  of_int z := inject_Z z;
  of_float_lit z := inject_Z z;
  py_add a b := Ok (Qplus a b);
  py_sub a b := Ok (Qminus a b);
  py_mul a b := Ok (Qmult a b);
  py_eqb := Qeq_bool;
  py_ltb a b := negb (Qle_bool b a);
  py_round2 := Q_round2;
  py_float s := read_literal s ≫= Q_of_literal
}.

(** ** Data model *)

Section DataModel.
Context {N : Type}.

(** One entry of the [metrics] list of the scoring configuration: a
    dictionary, each key present or not. *)
Record MetricDefinition : Type := {
  md_name : option string;
  md_source : option string;
  md_key : option string;
  md_weight : option N;
  md_type : option string;
  md_scale_factor : option N;
  md_max_score : option N;
  md_base_max_value : option N
}.

(** The mapping loaded from [scoring_config.yaml]. *)
Record ScoringConfig : Type := {
  description : option string;
  calculation_logic : option string;
  metrics : option (list MetricDefinition)
}.

(** A row of [project_scans]. *)
Record ScanRecord : Type := {
  scan_id : Z;
  project_name : string;
  scan_date : Z;
  final_score : option N
}.

(** A row of [scan_metadata]. *)
Record MetricRecord : Type := {
  metadata_id : Z;
  mr_scan_id : Z;
  metric_key : string;
  metric_value : string;
  metric_source : string
}.

(** A row of [metadata_scores]. *)
Record ScoreRecord : Type := {
  ms_metadata_id : Z;
  score : option N
}.

Record Database : Type := {
  project_scans : list ScanRecord;
  scan_metadata : list MetricRecord;
  metadata_scores : list ScoreRecord
}.
End DataModel.
Arguments MetricDefinition N : clear implicits.
Arguments ScoringConfig N : clear implicits.
Arguments ScanRecord N : clear implicits.
Arguments ScoreRecord N : clear implicits.
Arguments Database N : clear implicits.

(** [psycopg2.connect]: the database when it is reachable. *)
Definition connect {N : Type} (reachable : bool) (db : Database N) : option (Database N) :=
  if reachable then Some db else None.

(** [open(config_path)] followed by [yaml.safe_load]: the file system holds
    the configuration file or not. A file that exists holds a mapping with
    the keys [description], [calculation_logic] and [metrics], each present
    or not, and values of the types the code expects. *)
Definition read_yaml {N : Type} (file : option (ScoringConfig N)) : result (ScoringConfig N) :=
  match file with
  | Some config => Ok config
  | None => Raise FileNotFoundError
  end.

(** ** data-ingestion/new_ingestor.py *)

Module Ingestor.
Section WithNumbers.
Context {N : Type} `{PyNum N}.

Definition get_db_connection (reachable : bool) (db : Database N) : option (Database N) :=
  connect reachable db.

Definition update_final_score (conn : Database N) (id : Z) (score : N) : Database N :=
  {| project_scans :=
       map (fun r => if scan_id r =? id
                     then {| scan_id := scan_id r; project_name := project_name r;
                             scan_date := scan_date r; final_score := Some score |}
                     else r) (project_scans conn);
     scan_metadata := scan_metadata conn;
     metadata_scores := metadata_scores conn |}.

Definition load_scoring_config (file : option (ScoringConfig N)) : result (ScoringConfig N) :=
  read_yaml file.

(** [SELECT metric_key, metric_value, metric_source FROM scan_metadata
    WHERE scan_id = %s]. *)
Definition select_records (conn : Database N) (id : Z) : list (string * string * string) :=
  map (fun r => (metric_key r, metric_value r, metric_source r))
      (filter (fun r => mr_scan_id r = id) (scan_metadata conn)).

(** The dictionary of dictionaries built from the rows: one empty
    dictionary per source, then every value that parses. *)
Definition build_metrics_by_source (records : list (string * string * string))
    : gmap string (gmap string N) :=
  let init : gmap string (gmap string N) :=
    fold_left (fun m rec => <[rec.2 := ∅]> m) records ∅ in
  fold_left
    (fun m rec =>
       let '(key, value, source) := rec in
       match py_float value with
       | Some v => <[source := <[key := v]> (default ∅ (m !! source))]> m
       | None => m
       end)
    records init.

(** [metrics_by_source.get(source, {}).get(key, -1)]. *)
Definition raw_value_of (metrics_by_source : gmap string (gmap string N))
    (source key : string) : N :=
  get_default (default ∅ (metrics_by_source !! source) !! key) (of_int (-1)).

(** The score of one metric before weighting, by type. *)
Definition metric_score (metric_def : MetricDefinition N) (m_type : string)
    (raw_value : N) : result N :=
  if String.eqb m_type "direct" then Ok raw_value
  else if String.eqb m_type "direct_scaled" then
    py_mul raw_value (get_default (md_scale_factor metric_def) (of_int 1))
  else if String.eqb m_type "inverted_scaled" then
    let max_score := get_default (md_max_score metric_def) (of_int 100) in
    scaled ← py_mul raw_value (get_default (md_scale_factor metric_def) (of_int 1));
    rest ← py_sub max_score scaled;
    Ok (py_max (of_int 0) rest)
  else if String.eqb m_type "inverted_percentage" then
    let max_score := get_default (md_max_score metric_def) (of_int 100) in
    py_sub max_score raw_value
  else Ok (of_int 0).

(** [metric_score * weight]. *)
Definition contribution (metric_def : MetricDefinition N) (m_type : string)
    (weight raw_value : N) : result N :=
  s ← metric_score metric_def m_type raw_value;
  py_mul s weight.

(** One turn of the loop over [metrics_config], on the pair
    [(total_score, total_weight)]. *)
Definition score_metric (metrics_by_source : gmap string (gmap string N))
    (totals : N * N) (metric_def : MetricDefinition N) : result (N * N) :=
  source ← subscript "source" (md_source metric_def);
  key ← subscript "key" (md_key metric_def);
  weight ← subscript "weight" (md_weight metric_def);
  m_type ← subscript "type" (md_type metric_def);
  let raw_value := raw_value_of metrics_by_source source key in
  if py_eqb raw_value (of_int (-1)) then Ok totals
  else
    c ← contribution metric_def m_type weight raw_value;
    total_score ← py_add totals.1 c;
    total_weight ← py_add totals.2 weight;
    Ok (total_score, total_weight).

Fixpoint score_loop (metrics_by_source : gmap string (gmap string N))
    (metrics_config : list (MetricDefinition N)) (totals : N * N) : result (N * N) :=
  match metrics_config with
  | [] => Ok totals
  | metric_def :: rest =>
      totals' ← score_metric metrics_by_source totals metric_def;
      score_loop metrics_by_source rest totals'
  end.

Definition calculate_final_score (conn : option (Database N))
    (file : option (ScoringConfig N)) (id : Z) : result N :=
  match conn with
  | None => Ok (of_float_lit 0)
  | Some db =>
      let records := select_records db id in
      match records with
      | [] => Ok (of_float_lit 0)
      | _ :: _ =>
          config ← load_scoring_config file;
          let metrics_config := get_default (metrics config) [] in
          let metrics_by_source := build_metrics_by_source records in
          totals ← score_loop metrics_by_source metrics_config (of_int 0, of_int 0);
          Ok (py_round2 totals.1)
      end
  end.

(** The end of one turn of [run_ingestion_workflow]: the score of the scan
    is computed and written to its row. The two connections are opened
    one after the other. *)
Definition score_scan (read_ok write_ok : bool) (file : option (ScoringConfig N))
    (db : Database N) (id : Z) : result (Database N) :=
  final ← calculate_final_score (get_db_connection read_ok db) file id;
  match get_db_connection write_ok db with
  | Some conn => Ok (update_final_score conn id final)
  | None => Ok db
  end.

(** *** Storing and collecting *)

(** The conflict target of the upsert: [(scan_id, metric_key,
    metric_source)]. *)
Definition same_metric (id : Z) (key source : string) (r : MetricRecord) : bool :=
  bool_decide (mr_scan_id r = id ∧ metric_key r = key ∧ metric_source r = source).

(** [INSERT INTO scan_metadata ... ON CONFLICT (scan_id, metric_key,
    metric_source) DO UPDATE SET metric_value = EXCLUDED.metric_value], with
    [value] standing for [str(value)]. [fresh] is the identifier the
    sequence of [metadata_id] hands out. *)
Definition store_metadata_record (fresh : Z) (conn : Database N) (id : Z)
    (key value source : string) : Database N :=
  let rows := scan_metadata conn in
  {| project_scans := project_scans conn;
     scan_metadata :=
       if existsb (same_metric id key source) rows then
         map (fun r =>
                if same_metric id key source r
                then {| metadata_id := metadata_id r; mr_scan_id := mr_scan_id r;
                        metric_key := metric_key r; metric_value := value;
                        metric_source := metric_source r |}
                else r) rows
       else rows ++ [{| metadata_id := fresh; mr_scan_id := id; metric_key := key;
                        metric_value := value; metric_source := source |}];
     metadata_scores := metadata_scores conn |}.

(** Modelled from the spec: the table definition of [project_scans] is not
    in the repository; a new row takes the creation time as [scan_date] and
    has no [final_score] until scoring completes. [INSERT INTO project_scans
    (project_name) VALUES (%s) RETURNING scan_id], with [fresh] the
    identifier the sequence hands out. *)
Definition create_scan_record (fresh now : Z) (conn : Database N) (project : string)
    : Database N * Z :=
  ({| project_scans :=
        project_scans conn ++
        [{| scan_id := fresh; project_name := project; scan_date := now;
            final_score := None |}];
      scan_metadata := scan_metadata conn;
      metadata_scores := metadata_scores conn |},
   fresh).

(** One element of the [measures] list of SonarQube, or of the [checks] list
    of the scorecard: a dictionary of a name and a value, each present or
    not, the value given by its [str] rendering. *)
Record Measure : Type := {
  m_name : option string;
  m_value : option string
}.

(** The loop of a collector on its connection: every element is stored
    under [source]; an element without its name or value key raises
    [KeyError]. [name_key] and [value_key] are the two keys subscripted. *)
Fixpoint store_all (name_key value_key source : string) (seq : Z) (conn : Database N)
    (id : Z) (measures : list Measure) : result (Database N) :=
  match measures with
  | [] => Ok conn
  | m :: rest =>
      name ← subscript name_key (m_name m);
      value ← subscript value_key (m_value m);
      store_all name_key value_key source (seq + 1)
        (store_metadata_record seq conn id name value source) id rest
  end.

(** [collect_sonarqube_metrics]. [reply] is the list under
    [component.measures] of the response, [None] when [requests] raises.
    The rows are committed together after the loop; on every other path the
    connection is closed without a commit and the database is as before. *)
Definition collect_sonarqube_metrics (token : string) (reachable : bool)
    (reply : option (list Measure)) (seq : Z) (db : Database N) (id : Z)
    : result (Database N) :=
  if bool_decide (token = "") then Ok db
  else
    match get_db_connection reachable db with
    | None => Ok db
    | Some conn =>
        match reply with
        | None => Ok db
        | Some measures => store_all "metric" "value" "sonarqube" seq conn id measures
        end
    end.

(** What running the scorecard command gives. *)
Inductive ScorecardRun : Type :=
  | RunFailed
  | NonZeroExit
  | InvalidJson
  | Scorecard (overall : option string) (checks : option (list Measure)).

(** [collect_openssf_metrics]: the overall score, 0 when the output has
    none, then one row per check. *)
Definition collect_openssf_metrics (token : string) (reachable : bool)
    (run : ScorecardRun) (seq : Z) (db : Database N) (id : Z) : result (Database N) :=
  if bool_decide (token = "") then Ok db
  else
    match get_db_connection reachable db with
    | None => Ok db
    | Some conn =>
        match run with
        | RunFailed | NonZeroExit | InvalidJson => Ok db
        | Scorecard overall checks =>
            store_all "name" "score" "openssf" (seq + 1)
              (store_metadata_record seq conn id "overall_score"
                 (get_default overall "0") "openssf")
              id (get_default checks [])
        end
    end.

(** [executor.submit(task)]: the future is never read, so an exception of
    the task is dropped; its transaction was not committed. *)
Definition submit (task : Database N -> result (Database N)) (db : Database N)
    : Database N :=
  match task db with
  | Ok db' => db'
  | Raise _ => db
  end.

(** [repo_url.split('/')[-1]]. *)
Definition project_name_of (repo_url : string) : string :=
  string_of_list_ascii
    (fold_left (fun acc c => if Ascii.eqb c "/" then [] else acc ++ [c])
               (list_ascii_of_string repo_url) []).

(** White space for [str.strip], in ASCII. *)
Definition is_py_space (c : ascii) : bool :=
  let n := Z.of_nat (nat_of_ascii c) in
  (n =? 32) || ((9 <=? n) && (n <=? 13)) || ((28 <=? n) && (n <=? 31)).

(** A string holds the UTF-8 bytes of a Python [str] (the repositories
    file is read as UTF-8). The white space of [str.strip] from U+0080 on,
    by its bytes: U+0085 and U+00A0 in two bytes; U+1680, U+2000 to U+200A,
    U+2028, U+2029, U+202F, U+205F and U+3000 in three. *)
Definition is_py_space2 (c1 c2 : ascii) : bool :=
  let n1 := Z.of_nat (nat_of_ascii c1) in
  let n2 := Z.of_nat (nat_of_ascii c2) in
  (n1 =? 194) && ((n2 =? 133) || (n2 =? 160)).

Definition is_py_space3 (c1 c2 c3 : ascii) : bool :=
  let n1 := Z.of_nat (nat_of_ascii c1) in
  let n2 := Z.of_nat (nat_of_ascii c2) in
  let n3 := Z.of_nat (nat_of_ascii c3) in
  ((n1 =? 225) && (n2 =? 154) && (n3 =? 128))
  || ((n1 =? 226) && (n2 =? 128)
      && (((128 <=? n3) && (n3 <=? 138)) || (n3 =? 168) || (n3 =? 169) || (n3 =? 175)))
  || ((n1 =? 226) && (n2 =? 129) && (n3 =? 159))
  || ((n1 =? 227) && (n2 =? 128) && (n3 =? 128)).

(** [lstrip]: the white space characters at the start are dropped. *)
Fixpoint py_lstrip (s : list ascii) : list ascii :=
  match s with
  | c1 :: s1 =>
      if is_py_space c1 then py_lstrip s1
      else
        match s1 with
        | c2 :: s2 =>
            if is_py_space2 c1 c2 then py_lstrip s2
            else
              match s2 with
              | c3 :: s3 => if is_py_space3 c1 c2 c3 then py_lstrip s3 else s
              | [] => s
              end
        | [] => s
        end
  | [] => []
  end.

(** [rstrip], on the bytes in reverse order: the white space characters at
    the end are dropped. *)
Fixpoint py_rstrip_reversed (s : list ascii) : list ascii :=
  match s with
  | c1 :: s1 =>
      if is_py_space c1 then py_rstrip_reversed s1
      else
        match s1 with
        | c2 :: s2 =>
            if is_py_space2 c2 c1 then py_rstrip_reversed s2
            else
              match s2 with
              | c3 :: s3 => if is_py_space3 c3 c2 c1 then py_rstrip_reversed s3 else s
              | [] => s
              end
        | [] => s
        end
  | [] => []
  end.

(** [line.strip()]. *)
Definition py_strip (line : string) : string :=
  string_of_list_ascii
    (rev (py_rstrip_reversed (rev (py_lstrip (list_ascii_of_string line))))).

(** [[line.strip() for line in f if line.strip()]], on the lines of the
    repositories file. *)
Definition read_repositories (lines : list string) : list string :=
  filter (fun line => line ≠ "") (py_strip <$> lines).

(** What the outside world answers during the turn of one repository. *)
Record Outside : Type := {
  db_up_create : bool;
  db_up_sonarqube : bool;
  db_up_openssf : bool;
  db_up_read : bool;
  db_up_write : bool;
  sonarqube_token : string;
  scorecard_token : string;
  sonarqube_reply : option (list Measure);
  scorecard_run : ScorecardRun;
  next_scan_id : Z;
  now : Z;
  sonarqube_seq : Z;
  openssf_seq : Z;
  sonarqube_first : bool
}.

(** The two tasks of the thread pool; each commits at most once, and
    [sonarqube_first] tells whose commit comes first. *)
Definition collect_both (w : Outside) (db : Database N) (id : Z) : Database N :=
  let sonarqube :=
    submit (fun db => collect_sonarqube_metrics (sonarqube_token w) (db_up_sonarqube w)
                        (sonarqube_reply w) (sonarqube_seq w) db id) in
  let openssf :=
    submit (fun db => collect_openssf_metrics (scorecard_token w) (db_up_openssf w)
                        (scorecard_run w) (openssf_seq w) db id) in
  if sonarqube_first w then openssf (sonarqube db) else sonarqube (openssf db).

(** One turn of the loop of [run_ingestion_workflow]. *)
Definition process_repository (w : Outside) (file : option (ScoringConfig N))
    (db : Database N) (repo_url : string) : result (Database N) :=
  let project_name := project_name_of repo_url in
  match get_db_connection (db_up_create w) db with
  | None => Ok db
  | Some conn =>
      let '(db1, id) := create_scan_record (next_scan_id w) (now w) conn project_name in
      if id =? 0 then Ok db1
      else score_scan (db_up_read w) (db_up_write w) file (collect_both w db1 id) id
  end.

(** [run_ingestion_workflow]: the repositories in turn, the turn of rank
    [i] with the answers [world i] of the outside world; without the
    repositories file nothing is done. An exception of a turn ends the
    run. *)
Fixpoint process_all (world : nat -> Outside) (file : option (ScoringConfig N))
    (i : nat) (db : Database N) (repositories : list string) : result (Database N) :=
  match repositories with
  | [] => Ok db
  | repo_url :: rest =>
      db' ← process_repository (world i) file db repo_url;
      process_all world file (S i) db' rest
  end.

Definition run_ingestion_workflow (repositories_file : option (list string))
    (world : nat -> Outside) (file : option (ScoringConfig N)) (db : Database N)
    : result (Database N) :=
  match repositories_file with
  | None => Ok db
  | Some lines => process_all world file 0 db (read_repositories lines)
  end.
End WithNumbers.
End Ingestor.

(** ** api/api.py *)

Module Api.
Section WithNumbers.
Context {N : Type} `{PyNum N}.

(** [get_db_connection] raises the HTTP error itself. *)
Definition get_db_connection (reachable : bool) (db : Database N) : result (Database N) :=
  match connect reachable db with
  | Some conn => Ok conn
  | None => Raise (HTTPException 500)
  end.

(** A missing file is answered by [None]; nothing else is caught. *)
Definition load_scoring_config (file : option (ScoringConfig N))
    : result (option (ScoringConfig N)) :=
  match read_yaml file with
  | Ok config => Ok (Some config)
  | Raise FileNotFoundError => Ok None
  | Raise e => Raise e
  end.

(** The truth value of the loaded mapping: a dictionary with no key is
    false (the mapping has no key other than the three of the record). *)
Definition truthy (config : ScoringConfig N) : bool :=
  bool_decide (description config ≠ None)
  || bool_decide (calculation_logic config ≠ None)
  || bool_decide (metrics config ≠ None).

(** One turn of the loop of [calculate_max_score]; the log line of each
    branch reads [metric['name']]. *)
Definition add_metric_max (max_score : N) (metric : MetricDefinition N) : result N :=
  let weight := get_default (md_weight metric) (of_float_lit 1) in
  let metric_type := md_type metric in
  if bool_decide (metric_type = Some "direct_scaled") then
    let base_max := get_default (md_base_max_value metric) (of_int 10) in
    scaled ← py_mul base_max (get_default (md_scale_factor metric) (of_int 1));
    metric_max_score ← py_mul scaled weight;
    max_score' ← py_add max_score metric_max_score;
    _ ← subscript "name" (md_name metric);
    Ok max_score'
  else if bool_decide (metric_type = Some "direct") then
    metric_max_score ← py_mul (of_int 100) weight;
    max_score' ← py_add max_score metric_max_score;
    _ ← subscript "name" (md_name metric);
    Ok max_score'
  else if bool_decide (metric_type = Some "inverted_scaled")
          || bool_decide (metric_type = Some "inverted_percentage") then
    metric_max_score ← py_mul (get_default (md_max_score metric) (of_int 0)) weight;
    max_score' ← py_add max_score metric_max_score;
    _ ← subscript "name" (md_name metric);
    Ok max_score'
  else Ok max_score.

Fixpoint max_loop (metrics : list (MetricDefinition N)) (max_score : N) : result N :=
  match metrics with
  | [] => Ok max_score
  | metric :: rest =>
      max_score' ← add_metric_max max_score metric;
      max_loop rest max_score'
  end.

Definition calculate_max_score (scoring_config : option (ScoringConfig N)) : result N :=
  match scoring_config with
  | None => Ok (of_int 0)
  | Some config =>
      if negb (truthy config) then Ok (of_int 0)
      else
        match metrics config with
        | None => Ok (of_int 0)
        | Some ms => max_loop ms (of_int 0)
        end
  end.

(** [SELECT ... FROM project_scans WHERE project_name = %s AND final_score
    IS NOT NULL ORDER BY scan_date DESC LIMIT 1]. *)
Definition scored_for (project : string) (r : ScanRecord N) : bool :=
  bool_decide (project_name r = project) && bool_decide (final_score r ≠ None).

Definition select_latest_scan (conn : Database N) (project : string)
    : option (ScanRecord N) :=
  fold_left
    (fun best r =>
       if scored_for project r then
         match best with
         | Some b => if scan_date b <? scan_date r then Some r else Some b
         | None => Some r
         end
       else best)
    (project_scans conn) None.

(** One entry of the [metadata] section of the response. *)
Record MetadataEntry : Type := {
  me_metric_key : string;
  me_metric_value : string;
  me_score : option N
}.

(** [SELECT sm.metric_key, sm.metric_value, sm.metric_source, ms.score FROM
    scan_metadata sm LEFT JOIN metadata_scores ms ON sm.metadata_id =
    ms.metadata_id WHERE sm.scan_id = %s]. *)
Definition select_metadata (conn : Database N) (id : Z)
    : list (string * MetadataEntry) :=
  flat_map
    (fun sm =>
       let entry s := (metric_source sm,
                       {| me_metric_key := metric_key sm;
                          me_metric_value := metric_value sm;
                          me_score := s |}) in
       match filter (fun ms => ms_metadata_id ms = metadata_id sm) (metadata_scores conn) with
       | [] => [entry None]
       | matches => map (fun ms => entry (score ms)) matches
       end)
    (filter (fun sm => mr_scan_id sm = id) (scan_metadata conn)).

Definition group_by_source (rows : list (string * MetadataEntry))
    : gmap string (list MetadataEntry) :=
  fold_left
    (fun grouped row => <[row.1 := default [] (grouped !! row.1) ++ [row.2]]> grouped)
    rows ∅.

Fixpoint insert_by_key (e : MetadataEntry) (l : list MetadataEntry) : list MetadataEntry :=
  match l with
  | [] => [e]
  | e' :: l' =>
      if String.leb (me_metric_key e) (me_metric_key e') then e :: l
      else e' :: insert_by_key e l'
  end.

(** [sorted(entries, key=lambda x: x['metric_key'])], a stable sort. *)
Definition sorted_by_key (l : list MetadataEntry) : list MetadataEntry :=
  foldr insert_by_key [] l.

Inductive ScoringFormula : Type :=
  | FormulaDetails (descr logic : option string) (ms : option (list (MetricDefinition N)))
  | FormulaError (error : string).

(** The body of the 200 response. *)
Record ScanView : Type := {
  sv_scan_id : Z;
  sv_project_name : string;
  sv_scan_date : Z;
  sv_final_score : option N;
  sv_max_score : N;
  sv_scoring_formula : ScoringFormula;
  sv_metadata : gmap string (list MetadataEntry)
}.

Definition get_latest_scan (reachable : bool) (db : Database N)
    (file : option (ScoringConfig N)) (project : string) : result ScanView :=
  conn ← get_db_connection reachable db;
  match select_latest_scan conn project with
  | None => Raise (HTTPException 404)
  | Some latest_scan =>
      let metadata_records := select_metadata conn (scan_id latest_scan) in
      let grouped_metadata := sorted_by_key <$> group_by_source metadata_records in
      scoring_config ← load_scoring_config file;
      '(max_score, formula) ←
        match scoring_config with
        | Some config =>
            if truthy config then
              max_score ← calculate_max_score scoring_config;
              Ok (max_score,
                  FormulaDetails (description config) (calculation_logic config)
                                 (metrics config))
            else Ok (of_int 0, FormulaError "Scoring configuration not found.")
        | None => Ok (of_int 0, FormulaError "Scoring configuration not found.")
        end;
      Ok {| sv_scan_id := scan_id latest_scan;
            sv_project_name := project_name latest_scan;
            sv_scan_date := scan_date latest_scan;
            sv_final_score := final_score latest_scan;
            sv_max_score := max_score;
            sv_scoring_formula := formula;
            sv_metadata := grouped_metadata |}
  end.
End WithNumbers.
End Api.

(** ** What Python guarantees of its numbers

    [-1 == -1] holds, and arithmetic on numbers raises nothing but
    [OverflowError]. *)
Class PyNumLaws (N : Type) `{PyNum N} : Prop := {
  py_eqb_minus_one : py_eqb (of_int (-1)) (of_int (-1)) = true;
  py_add_raises : forall a b e, py_add a b = Raise e -> e = OverflowError;
  py_sub_raises : forall a b e, py_sub a b = Raise e -> e = OverflowError;
  py_mul_raises : forall a b e, py_mul a b = Raise e -> e = OverflowError
}.

(** ** The scoring policy in the words of the specification *)

Section Policy.
Context {N : Type} `{PyNum N}.

(** A lookup in the dictionary of dictionaries, before the default. *)
Definition inner (m : gmap string (gmap string N)) (source key : string) : option N :=
  default ∅ (m !! source) !! key.

(** The raw metric of a source and key among the rows of a scan: the value
    of the last such row that parses. *)
Fixpoint parsed_value (records : list (string * string * string))
    (source key : string) : option N :=
  match records with
  | [] => None
  | (k, value, s) :: rest =>
      match parsed_value rest source key with
      | Some v => Some v
      | None => if bool_decide (s = source ∧ k = key) then py_float value else None
      end
  end.

(** A definition carries the four keys the scoring loop subscripts. *)
Definition well_formed (d : MetricDefinition N) : Prop :=
  is_Some (md_source d) ∧ is_Some (md_key d) ∧
  is_Some (md_weight d) ∧ is_Some (md_type d).

(** The term of a definition in the total: its weight and its
    contribution, when its source and key are found among the parseable
    raw metrics. With [skip_sentinel], a raw value equal to [-1] counts
    as not found. *)
Definition term_of (skip_sentinel : bool) (records : list (string * string * string))
    (d : MetricDefinition N) : option (N * result N) :=
  match md_source d, md_key d, md_weight d, md_type d with
  | Some source, Some key, Some weight, Some m_type =>
      match parsed_value records source key with
      | Some v =>
          if skip_sentinel && py_eqb v (of_int (-1)) then None
          else Some (weight, Ingestor.contribution d m_type weight v)
      | None => None
      end
  | _, _, _, _ => None
  end.

(** A sum, in the order of the list, from [acc]. *)
Fixpoint sum_from (acc : N) (terms : list (result N)) : result N :=
  match terms with
  | [] => Ok acc
  | t :: rest =>
      c ← t;
      acc' ← py_add acc c;
      sum_from acc' rest
  end.

(** The total of the contributions of the definitions found. *)
Definition total_score (skip_sentinel : bool) (records : list (string * string * string))
    (defs : list (MetricDefinition N)) : result N :=
  sum_from (of_int 0) (snd <$> omap (term_of skip_sentinel records) defs).

(** The total of the weights of the definitions found. *)
Definition total_weight (skip_sentinel : bool) (records : list (string * string * string))
    (defs : list (MetricDefinition N)) : result N :=
  sum_from (of_int 0) ((fun t => Ok t.1) <$> omap (term_of skip_sentinel records) defs).

(** The theoretical maximum of one definition, by type; a definition of
    no known type has none. *)
Definition type_maximum (d : MetricDefinition N) : option (result N) :=
  let weight := get_default (md_weight d) (of_float_lit 1) in
  let scale_factor := get_default (md_scale_factor d) (of_int 1) in
  match md_type d with
  | Some t =>
      if String.eqb t "direct" then Some (py_mul (of_int 100) weight)
      else if String.eqb t "direct_scaled" then
        Some (b ← py_mul (get_default (md_base_max_value d) (of_int 10)) scale_factor;
              py_mul b weight)
      else if String.eqb t "inverted_scaled" || String.eqb t "inverted_percentage" then
        Some (py_mul (get_default (md_max_score d) (of_int 0)) weight)
      else None
  | None => None
  end.

(** The total theoretical maximum of a list of definitions. *)
Definition theoretical_maximum (defs : list (MetricDefinition N)) : result N :=
  sum_from (of_int 0) (omap type_maximum defs).

(** A definition that has a maximum has a name (the log line of
    [calculate_max_score] reads it). *)
Definition named (d : MetricDefinition N) : Prop :=
  is_Some (type_maximum d) -> is_Some (md_name d).


(** The definition [d] with the two optional parameters given. *)
Definition with_parameters (d : MetricDefinition N) (scale_factor max_score : option N)
    : MetricDefinition N :=
  {| md_name := md_name d; md_source := md_source d; md_key := md_key d;
     md_weight := md_weight d; md_type := md_type d;
     md_scale_factor := scale_factor; md_max_score := max_score;
     md_base_max_value := md_base_max_value d |}.
End Policy.

(** ** Sample configurations and databases, over binary64 *)

Module Sample.
Definition metric (name source key m_type : string) (weight : pynum)
    (scale_factor max_score base_max_value : option pynum) : MetricDefinition pynum :=
  {| md_name := Some name; md_source := Some source; md_key := Some key;
     md_weight := Some weight; md_type := Some m_type;
     md_scale_factor := scale_factor; md_max_score := max_score;
     md_base_max_value := base_max_value |}.

Definition config_of (defs : list (MetricDefinition pynum)) : ScoringConfig pynum :=
  {| description := Some "Weighted sum of the metrics";
     calculation_logic := None;
     metrics := Some defs |}.

Definition row (rid scan : Z) (key value source : string) : MetricRecord :=
  {| metadata_id := rid; mr_scan_id := scan; metric_key := key;
     metric_value := value; metric_source := source |}.

Definition scan (id : Z) (project : string) (date : Z) (final : option pynum)
    : ScanRecord pynum :=
  {| scan_id := id; project_name := project; scan_date := date; final_score := final |}.

(** The scenario of the specification: coverage 7.5 from sonarqube and
    overall score 6 from openssf. *)
Definition coverage (name : string) : MetricDefinition pynum :=
  metric name "sonarqube" "coverage" "direct_scaled" (PyInt 2)
         (Some (PyInt 1)) None (Some (PyInt 10)).

Definition overall (name : string) : MetricDefinition pynum :=
  metric name "openssf" "overall_score" "inverted_percentage" (PyInt 1)
         None (Some (PyInt 10)) None.

Definition scenario_config : ScoringConfig pynum :=
  config_of [coverage "Coverage"; overall "OpenSSF score"].

Definition scenario_db : Database pynum :=
  {| project_scans := [scan 1 "demo" 100 None];
     scan_metadata := [row 1 1 "coverage" "7.5" "sonarqube";
                       row 2 1 "overall_score" "6" "openssf"];
     metadata_scores := [] |}.

(** Three scans of one project, the latest of them without a score, and a
    scored scan of another project. *)
Definition history_db : Database pynum :=
  {| project_scans := [scan 1 "demo" 100 (Some (PyFloat 12));
                       scan 2 "demo" 200 (Some (PyFloat 19));
                       scan 3 "demo" 300 None;
                       scan 4 "other" 400 (Some (PyFloat 1))];
     scan_metadata := [row 1 2 "coverage" "7.5" "sonarqube";
                       row 2 2 "overall_score" "6" "openssf"];
     metadata_scores := [] |}.

(** An inverted metric whose [max_score] is left out, and the same with
    [max_score: 0] written. *)
Definition overall_no_max : MetricDefinition pynum :=
  metric "OpenSSF score" "openssf" "overall_score" "inverted_percentage" (PyInt 1)
         None None None.

Definition overall_zero_max : MetricDefinition pynum :=
  metric "OpenSSF score" "openssf" "overall_score" "inverted_percentage" (PyInt 1)
         None (Some (PyInt 0)) None.

(** A check that the scanner reports with the score -1. *)
Definition signed_releases : MetricDefinition pynum :=
  metric "Signed releases" "openssf" "Signed-Releases" "inverted_percentage" (PyInt 1)
         None (Some (PyInt 10)) None.

Definition sentinel_db : Database pynum :=
  {| project_scans := [scan 1 "demo" 100 None];
     scan_metadata := [row 1 1 "Signed-Releases" "-1" "openssf"];
     metadata_scores := [] |}.

(** A row whose value is not a number, next to one that is. *)
Definition unparseable_db : Database pynum :=
  {| project_scans := [scan 1 "demo" 100 None];
     scan_metadata := [row 1 1 "coverage" "n/a" "sonarqube";
                       row 2 1 "overall_score" "6" "openssf"];
     metadata_scores := [] |}.

Definition parseable_db : Database pynum :=
  {| project_scans := [scan 1 "demo" 100 None];
     scan_metadata := [row 2 1 "overall_score" "6" "openssf"];
     metadata_scores := [] |}.


(** A weight with more than two decimals. *)
Definition fine_weight : MetricDefinition pynum :=
  metric "Coverage" "sonarqube" "coverage" "direct" (PyFloat 0.001953125)
         None None None.

End Sample.

(** ** Invariants of the tables *)

From Stdlib Require Import Sorted.

Section Invariants.
Context {N : Type}.

(** The uniqueness constraint of [scan_metadata]: one row per scan, key
    and source. *)
Definition unique_metrics (rows : list MetricRecord) : Prop :=
  NoDup ((fun r => (mr_scan_id r, metric_key r, metric_source r)) <$> rows).

(** The value stored for a scan, key and source. *)
Definition stored_value (rows : list MetricRecord) (id : Z) (key source : string)
    : option string :=
  metric_value <$> find (Ingestor.same_metric id key source) rows.

(** The scan identifiers are a key of [project_scans]. *)
Definition unique_scans (db : Database N) : Prop :=
  NoDup (scan_id <$> project_scans db).

(** A list of entries in ascending order of [metric_key]. *)
Definition key_sorted (l : list (@Api.MetadataEntry N)) : Prop :=
  Sorted (fun a b => String.leb (Api.me_metric_key a) (Api.me_metric_key b) = true) l.

(** A measure that carries both of its keys. *)
Definition complete (m : Ingestor.Measure) : Prop :=
  is_Some (Ingestor.m_name m) ∧ is_Some (Ingestor.m_value m).

(** The value a batch of measures leaves for a name: the one of the last
    measure of that name. *)
Fixpoint written (measures : list Ingestor.Measure) (name : string) : option string :=
  match measures with
  | [] => None
  | m :: rest =>
      match written rest name with
      | Some v => Some v
      | None => if bool_decide (Ingestor.m_name m = Some name) then Ingestor.m_value m else None
      end
  end.

(** The batch that the SonarQube collector commits, if it commits. *)
Definition sonarqube_batch (w : Ingestor.Outside) : option (list Ingestor.Measure) :=
  if bool_decide (Ingestor.sonarqube_token w = "") then None
  else if negb (Ingestor.db_up_sonarqube w) then None
  else
    match Ingestor.sonarqube_reply w with
    | Some measures => if bool_decide (Forall complete measures) then Some measures else None
    | None => None
    end.

(** The batch that the scorecard collector commits, if it commits: the
    overall score, then the checks. *)
Definition openssf_batch (w : Ingestor.Outside) : option (list Ingestor.Measure) :=
  if bool_decide (Ingestor.scorecard_token w = "") then None
  else if negb (Ingestor.db_up_openssf w) then None
  else
    match Ingestor.scorecard_run w with
    | Ingestor.Scorecard overall checks =>
        if bool_decide (Forall complete (get_default checks []))
        then Some ({| Ingestor.m_name := Some "overall_score";
                      Ingestor.m_value := Some (get_default overall "0") |}
                   :: get_default checks [])
        else None
    | _ => None
    end.

(** What is stored after a batch under [source] for the scan [id], from
    what was stored before. *)
Definition after_batch (batch : option (list Ingestor.Measure)) (id : Z) (source : string)
    (before : Z -> string -> string -> option string) (id' : Z) (key' source' : string)
    : option string :=
  match batch with
  | Some measures =>
      if bool_decide (id' = id ∧ source' = source) then
        match written measures key' with
        | Some v => Some v
        | None => before id' key' source'
        end
      else before id' key' source'
  | None => before id' key' source'
  end.

(** The same answers of the outside world, with the other order of the two
    commits. *)
Definition other_order (w : Ingestor.Outside) : Ingestor.Outside :=
  {| Ingestor.db_up_create := Ingestor.db_up_create w;
     Ingestor.db_up_sonarqube := Ingestor.db_up_sonarqube w;
     Ingestor.db_up_openssf := Ingestor.db_up_openssf w;
     Ingestor.db_up_read := Ingestor.db_up_read w;
     Ingestor.db_up_write := Ingestor.db_up_write w;
     Ingestor.sonarqube_token := Ingestor.sonarqube_token w;
     Ingestor.scorecard_token := Ingestor.scorecard_token w;
     Ingestor.sonarqube_reply := Ingestor.sonarqube_reply w;
     Ingestor.scorecard_run := Ingestor.scorecard_run w;
     Ingestor.next_scan_id := Ingestor.next_scan_id w;
     Ingestor.now := Ingestor.now w;
     Ingestor.sonarqube_seq := Ingestor.sonarqube_seq w;
     Ingestor.openssf_seq := Ingestor.openssf_seq w;
     Ingestor.sonarqube_first := negb (Ingestor.sonarqube_first w) |}.
End Invariants.

(** ** More sample data *)

Module Fixture.
Definition measure (name value : string) : Ingestor.Measure :=
  {| Ingestor.m_name := Some name; Ingestor.m_value := Some value |}.

(** A measure without its value. *)
Definition broken_measure : Ingestor.Measure :=
  {| Ingestor.m_name := Some "bugs"; Ingestor.m_value := None |}.

Definition empty_db : Database pynum :=
  {| project_scans := []; scan_metadata := []; metadata_scores := [] |}.

(** Every connection succeeds, both sources answer. *)
Definition fair_weather : Ingestor.Outside :=
  {| Ingestor.db_up_create := true; Ingestor.db_up_sonarqube := true;
     Ingestor.db_up_openssf := true; Ingestor.db_up_read := true;
     Ingestor.db_up_write := true;
     Ingestor.sonarqube_token := "squ_token"; Ingestor.scorecard_token := "ghp_token";
     Ingestor.sonarqube_reply := Some [measure "coverage" "7.5"; measure "bugs" "3"];
     Ingestor.scorecard_run :=
       Ingestor.Scorecard (Some "6") (Some [measure "Signed-Releases" "-1"]);
     Ingestor.next_scan_id := 5; Ingestor.now := 500;
     Ingestor.sonarqube_seq := 10; Ingestor.openssf_seq := 20;
     Ingestor.sonarqube_first := true |}.

(** The same, with a measure of SonarQube that lacks its value. *)
Definition broken_sonarqube : Ingestor.Outside :=
  {| Ingestor.db_up_create := true; Ingestor.db_up_sonarqube := true;
     Ingestor.db_up_openssf := true; Ingestor.db_up_read := true;
     Ingestor.db_up_write := true;
     Ingestor.sonarqube_token := "squ_token"; Ingestor.scorecard_token := "ghp_token";
     Ingestor.sonarqube_reply := Some [measure "coverage" "7.5"; broken_measure];
     Ingestor.scorecard_run :=
       Ingestor.Scorecard (Some "6") (Some [measure "Signed-Releases" "-1"]);
     Ingestor.next_scan_id := 5; Ingestor.now := 500;
     Ingestor.sonarqube_seq := 10; Ingestor.openssf_seq := 20;
     Ingestor.sonarqube_first := true |}.

(** A metric without the [name] key, and one without the [weight] key. *)
Definition nameless : MetricDefinition pynum :=
  {| md_name := None; md_source := Some "sonarqube"; md_key := Some "coverage";
     md_weight := Some (PyInt 2); md_type := Some "direct";
     md_scale_factor := None; md_max_score := None; md_base_max_value := None |}.

Definition weightless : MetricDefinition pynum :=
  {| md_name := Some "Coverage"; md_source := Some "sonarqube"; md_key := Some "coverage";
     md_weight := None; md_type := Some "direct";
     md_scale_factor := None; md_max_score := None; md_base_max_value := None |}.

(** Rows with scores attached, for one scan. *)
Definition joined_db : Database pynum :=
  {| project_scans := [Sample.scan 1 "demo" 100 (Some (PyFloat 19))];
     scan_metadata := [Sample.row 1 1 "coverage" "7.5" "sonarqube";
                       Sample.row 2 1 "bugs" "3" "sonarqube";
                       Sample.row 3 1 "overall_score" "6" "openssf"];
     metadata_scores := [{| ms_metadata_id := 2; score := Some (PyFloat 70) |}] |}.

(** The rows of the scenario in the other order. *)
Definition scenario_db_reversed : Database pynum :=
  {| project_scans := project_scans Sample.scenario_db;
     scan_metadata := rev (scan_metadata Sample.scenario_db);
     metadata_scores := [] |}.

(** The database after the turn of a repository on [Sample.history_db] in
    fair weather. *)
Definition after_turn : Database pynum :=
  match Ingestor.process_repository fair_weather (Some Sample.scenario_config)
          Sample.history_db "https://github.com/acme/demo" with
  | Ok db => db
  | Raise _ => empty_db
  end.

(** A configuration with a metric that has no name, and one with a metric
    that has no weight. *)
Definition nameless_config : ScoringConfig pynum :=
  Sample.config_of [Sample.overall "OpenSSF score"; nameless].

Definition weightless_config : ScoringConfig pynum :=
  Sample.config_of [Sample.overall "OpenSSF score"; weightless].

(** A repositories file of three lines: a repository with white space
    around it, an empty line, and a second repository. *)
Definition newline : string := String (ascii_of_nat 10) EmptyString.

Definition repositories_file : list string :=
  [String.append "  https://github.com/acme/demo" newline;
   newline;
   String.append "acme/other " newline].

(** Fair weather at every turn, with the identifiers and the clock moving
    on from one turn to the next. *)
Definition turn (i : nat) : Ingestor.Outside :=
  {| Ingestor.db_up_create := true; Ingestor.db_up_sonarqube := true;
     Ingestor.db_up_openssf := true; Ingestor.db_up_read := true;
     Ingestor.db_up_write := true;
     Ingestor.sonarqube_token := "squ_token"; Ingestor.scorecard_token := "ghp_token";
     Ingestor.sonarqube_reply := Some [measure "coverage" "7.5"; measure "bugs" "3"];
     Ingestor.scorecard_run :=
       Ingestor.Scorecard (Some "6") (Some [measure "Signed-Releases" "-1"]);
     Ingestor.next_scan_id := 5 + Z.of_nat i; Ingestor.now := 500 + Z.of_nat i;
     Ingestor.sonarqube_seq := 10 + 100 * Z.of_nat i;
     Ingestor.openssf_seq := 50 + 100 * Z.of_nat i;
     Ingestor.sonarqube_first := true |}.

(** The database does not answer when a scan is to be created. *)
Definition no_database : Ingestor.Outside :=
  {| Ingestor.db_up_create := false; Ingestor.db_up_sonarqube := true;
     Ingestor.db_up_openssf := true; Ingestor.db_up_read := true;
     Ingestor.db_up_write := true;
     Ingestor.sonarqube_token := "squ_token"; Ingestor.scorecard_token := "ghp_token";
     Ingestor.sonarqube_reply := Some [measure "coverage" "7.5"; measure "bugs" "3"];
     Ingestor.scorecard_run :=
       Ingestor.Scorecard (Some "6") (Some [measure "Signed-Releases" "-1"]);
     Ingestor.next_scan_id := 5; Ingestor.now := 500;
     Ingestor.sonarqube_seq := 10; Ingestor.openssf_seq := 20;
     Ingestor.sonarqube_first := true |}.
End Fixture.

(** * Properties *)

(** ** The two number instances obey Python's guarantees *)

Lemma float_of_int_raises (z : Z) (e : exn) :
  float_of_int z = Raise e -> e = OverflowError.
Proof.
  unfold float_of_int. destruct (is_infinity _); congruence.
Qed.

Lemma lift_float_raises op op_int (a b : pynum) (e : exn) :
  lift_float op a b op_int = Raise e -> e = OverflowError.
Proof.
  destruct a as [x|x], b as [y|y]; simpl; try discriminate.
  - destruct (float_of_int x) eqn:E; simpl; [discriminate|].
    intros [= <-]. eauto using float_of_int_raises.
  - destruct (float_of_int y) eqn:E; simpl; [discriminate|].
    intros [= <-]. eauto using float_of_int_raises.
Qed.

#[global] Instance binary64_laws : PyNumLaws pynum.
Proof.
  split; simpl; [reflexivity | | |]; intros a b e; apply lift_float_raises.
Qed.

#[global] Instance exact_laws : PyNumLaws Q.
Proof.
  split; simpl; [reflexivity | | |]; discriminate.
Qed.

(** ** The result monad *)

Lemma bind_Ok {A B : Type} (m : result A) (k : A -> result B) (b : B) :
  m ≫= k = Ok b <-> exists a, m = Ok a ∧ k a = Ok b.
Proof.
  destruct m as [a|e]; simpl.
  - split; [eauto | intros (a' & [= <-] & ?); done].
  - split; [discriminate | intros (a' & ? & _); discriminate].
Qed.

Lemma bind_Raise {A B : Type} (m : result A) (k : A -> result B) (e : exn) :
  m ≫= k = Raise e <-> m = Raise e ∨ exists a, m = Ok a ∧ k a = Raise e.
Proof.
  destruct m as [a|e']; simpl.
  - split; [eauto | intros [? | (a' & [= <-] & ?)]; done].
  - split; [intros [= <-]; eauto | intros [[= <-] | (a' & ? & _)]; done].
Qed.

(** ** The dictionary of raw metrics *)

Section Dictionary.
Context {N : Type} `{PyNum N}.
Implicit Types (records : list (string * string * string)).
Implicit Types (m : gmap string (gmap string N)).

Lemma inner_store m (source key s k : string) (v : N) :
  inner (<[s := <[k := v]> (default ∅ (m !! s))]> m) source key =
  if bool_decide (s = source ∧ k = key) then Some v else inner m source key.
Proof.
  unfold inner. destruct (decide (s = source)) as [->|Hs].
  - rewrite lookup_insert_eq. simpl.
    destruct (decide (k = key)) as [->|Hk].
    + rewrite lookup_insert_eq. by rewrite bool_decide_eq_true_2.
    + rewrite lookup_insert_ne by done. rewrite bool_decide_eq_false_2; [done | by intros [? ?]].
  - rewrite lookup_insert_ne by done. rewrite bool_decide_eq_false_2; [done | by intros [? ?]].
Qed.

Lemma inner_fold_store records m (source key : string) :
  inner
    (fold_left
       (fun m rec =>
          let '(key, value, source) := rec in
          match py_float value with
          | Some v => <[source := <[key := v]> (default ∅ (m !! source))]> m
          | None => m
          end) records m) source key =
  match parsed_value records source key with
  | Some v => Some v
  | None => inner m source key
  end.
Proof.
  revert m. induction records as [|[[k value] s] rest IH]; intros m; simpl; [done|].
  rewrite IH. destruct (parsed_value rest source key) as [v|]; [done|].
  destruct (py_float value) as [v|].
  - rewrite inner_store. by destruct (bool_decide _).
  - by destruct (bool_decide _).
Qed.

Lemma inner_fold_init records m (source key : string) :
  (forall s d, m !! s = Some d -> d = ∅) ->
  inner (fold_left (fun m rec => <[rec.2 := ∅]> m) records m) source key = None.
Proof.
  revert m. induction records as [|rec rest IH]; intros m Hm; simpl.
  - unfold inner. destruct (m !! source) as [d|] eqn:E; simpl; [|done].
    by rewrite (Hm _ _ E).
  - apply IH. intros s d. rewrite lookup_insert. case_decide; naive_solver.
Qed.

(** A lookup in the dictionary built from the rows finds the value of the
    last row of that source and key that parses. *)
Lemma inner_build records (source key : string) :
  inner (Ingestor.build_metrics_by_source records) source key =
  parsed_value records source key.
Proof.
  unfold Ingestor.build_metrics_by_source.
  rewrite inner_fold_store, inner_fold_init; [by destruct (parsed_value _ _ _) | done].
Qed.

Lemma raw_value_of_build records (source key : string) :
  Ingestor.raw_value_of (Ingestor.build_metrics_by_source records) source key =
  get_default (parsed_value records source key) (of_int (-1)).
Proof. unfold Ingestor.raw_value_of. by rewrite <- inner_build. Qed.

(** A row whose value does not parse leaves every lookup as it was. *)
Lemma parsed_value_unparseable records1 records2 (k value s source key : string) :
  py_float (N := N) value = None ->
  parsed_value (records1 ++ (k, value, s) :: records2) source key =
  parsed_value (N := N) (records1 ++ records2) source key.
Proof.
  intros Hv. induction records1 as [|[[k' value'] s'] rest IH]; simpl.
  - rewrite Hv. destruct (parsed_value records2 source key); [done|].
    by destruct (bool_decide _).
  - by rewrite IH.
Qed.

(** No row of that source and key: nothing is found. *)
Lemma parsed_value_absent records (source key : string) :
  (forall value, (key, value, source) ∉ records) ->
  parsed_value (N := N) records source key = None.
Proof.
  induction records as [|[[k value] s] rest IH]; intros Hno; simpl; [done|].
  rewrite IH.
  - rewrite bool_decide_eq_false_2; [done|].
    intros [-> ->]. apply (Hno value). left.
  - intros value' Hin. apply (Hno value'). by right.
Qed.

(** Under the uniqueness constraint of the table, the value found is the
    one of the only row of that source and key. *)
Lemma parsed_value_unique records (k value s : string) :
  NoDup ((fun r => (r.1.1, r.2)) <$> records) ->
  (k, value, s) ∈ records ->
  parsed_value (N := N) records s k = py_float value.
Proof.
  induction records as [|[[k' value'] s'] rest IH]; intros Hnd Hin.
  - by apply not_elem_of_nil in Hin.
  - simpl in *. apply NoDup_cons in Hnd as [Hfresh Hnd].
    apply elem_of_cons in Hin as [[= <- <- <-]|Hin].
    + rewrite parsed_value_absent.
      * by rewrite bool_decide_eq_true_2.
      * intros value'' Hin'. apply Hfresh.
        apply list_elem_of_fmap. by exists (k, value'', s).
    + rewrite (IH Hnd Hin).
      destruct (py_float value) as [v|] eqn:E; [done|].
      rewrite bool_decide_eq_false_2; [done|].
      intros [-> ->]. apply Hfresh. apply list_elem_of_fmap. by exists (k, value, s).
Qed.
End Dictionary.

(** ** The scoring loop of the ingestor *)

(** Case analysis on the first computation of a chain of binds. *)
Ltac case_bind :=
  match goal with
  | |- context [mbind _ ?m] =>
      lazymatch m with
      | Ok _ => fail
      | Raise _ => fail
      | mbind _ _ => fail
      | _ => destruct m eqn:?; simpl
      end
  end.

Section Loop.
Context {N : Type} `{PyNumLaws N}.
Implicit Types (records : list (string * string * string)).
Implicit Types (d : MetricDefinition N) (defs : list (MetricDefinition N)).

(** The four formulas, as the loop computes them. *)
Lemma contribution_by_type d (weight v : N) :
  let scale_factor := get_default (md_scale_factor d) (of_int 1) in
  let max_score := get_default (md_max_score d) (of_int 100) in
  Ingestor.contribution d "direct" weight v = py_mul v weight ∧
  Ingestor.contribution d "direct_scaled" weight v =
    (x ← py_mul v scale_factor; py_mul x weight) ∧
  Ingestor.contribution d "inverted_scaled" weight v =
    (x ← py_mul v scale_factor; y ← py_sub max_score x;
     py_mul (py_max (of_int 0) y) weight) ∧
  Ingestor.contribution d "inverted_percentage" weight v =
    (y ← py_sub max_score v; py_mul y weight).
Proof.
  unfold Ingestor.contribution, Ingestor.metric_score. simpl.
  repeat split; try done.
  by repeat case_bind.
Qed.

(** One turn of the loop on a well-formed definition: its term is added,
    or nothing happens. *)
Lemma score_metric_term records d (totals : N * N) :
  well_formed d ->
  Ingestor.score_metric (Ingestor.build_metrics_by_source records) totals d =
  match term_of true records d with
  | Some (weight, c) =>
      c' ← c;
      total_score ← py_add totals.1 c';
      total_weight ← py_add totals.2 weight;
      Ok (total_score, total_weight)
  | None => Ok totals
  end.
Proof.
  intros ([source Hs] & [key Hk] & [weight Hw] & [m_type Ht]).
  unfold Ingestor.score_metric, term_of. rewrite Hs, Hk, Hw, Ht. simpl.
  rewrite raw_value_of_build.
  destruct (parsed_value records source key) as [v|]; simpl.
  - by destruct (py_eqb v (of_int (-1))).
  - by rewrite py_eqb_minus_one.
Qed.

(** The loop computes the two totals, each a sum over the definitions
    found, in the order of the configuration. *)
Lemma score_loop_totals records defs (s0 w0 w : N) :
  Forall well_formed defs ->
  sum_from w0 ((fun t => Ok t.1) <$> omap (term_of true records) defs) = Ok w ->
  Ingestor.score_loop (Ingestor.build_metrics_by_source records) defs (s0, w0) =
  (fun s => (s, w)) <$> sum_from s0 (snd <$> omap (term_of true records) defs).
Proof.
  intros Hwf. revert s0 w0.
  induction Hwf as [|d defs Hd _ IH]; intros s0 w0 Hw; simpl in *.
  - by injection Hw as ->.
  - rewrite (score_metric_term _ _ _ Hd).
    destruct (term_of true records d) as [[weight c]|]; simpl in *.
    + destruct c as [c'|e]; simpl; [|done].
      destruct (py_add w0 weight) as [w1|e] eqn:Ew; simpl in *; [|done].
      destruct (py_add s0 c') as [s1|e]; simpl; [|done].
      by apply IH.
    + by apply IH.
Qed.

(** Writing the score sets it on the row of the scan, and on no other. *)
Lemma update_final_score_rows (conn : Database N) (id : Z) (s : N) (r : ScanRecord N) :
  r ∈ project_scans (Ingestor.update_final_score conn id s) <->
  exists r0, r0 ∈ project_scans conn ∧
    if scan_id r0 =? id
    then r = {| scan_id := scan_id r0; project_name := project_name r0;
                scan_date := scan_date r0; final_score := Some s |}
    else r = r0.
Proof.
  unfold Ingestor.update_final_score. simpl.
  change (map ?f ?l) with (f <$> l). rewrite list_elem_of_fmap.
  split; intros (r0 & H1 & H2); exists r0; destruct (scan_id r0 =? id); done.
Qed.

Lemma update_final_score_persisted (conn : Database N) (id : Z) (s : N) (r : ScanRecord N) :
  r ∈ project_scans (Ingestor.update_final_score conn id s) ->
  scan_id r = id -> final_score r = Some s.
Proof.
  intros (r0 & _ & Hr)%update_final_score_rows Hid.
  destruct (scan_id r0 =? id) eqn:E; subst r; [done|].
  apply Z.eqb_neq in E. done.
Qed.
End Loop.

(** ** The loop of [calculate_max_score] *)

Section Maximum.
Context {N : Type} `{PyNum N}.
Implicit Types (d : MetricDefinition N) (defs : list (MetricDefinition N)).

Lemma add_metric_max_term d (acc : N) :
  named d ->
  Api.add_metric_max acc d =
  match type_maximum d with
  | Some t => c ← t; py_add acc c
  | None => Ok acc
  end.
Proof.
  unfold named, Api.add_metric_max, type_maximum. intros Hname.
  destruct (md_type d) as [t|]; [|done].
  destruct (decide (t = "direct")) as [->|H1]; simpl in *.
  { destruct Hname as [n ->]; [done|]. repeat case_bind; done. }
  destruct (decide (t = "direct_scaled")) as [->|H2]; simpl in *.
  { destruct Hname as [n ->]; [done|]. repeat case_bind; done. }
  destruct (decide (t = "inverted_scaled")) as [->|H3]; simpl in *.
  { destruct Hname as [n ->]; [done|]. repeat case_bind; done. }
  destruct (decide (t = "inverted_percentage")) as [->|H4]; simpl in *.
  { destruct Hname as [n ->]; [done|]. repeat case_bind; done. }
  rewrite !bool_decide_eq_false_2 by congruence.
  apply String.eqb_neq in H1, H2, H3, H4. by rewrite H1, H2, H3, H4.
Qed.

(** The loop adds the maximum of every definition, found or not. *)
Lemma max_loop_sum defs (acc : N) :
  Forall named defs ->
  Api.max_loop defs acc = sum_from acc (omap type_maximum defs).
Proof.
  intros Hn. revert acc. induction Hn as [|d defs Hd _ IH]; intros acc; simpl; [done|].
  rewrite (add_metric_max_term _ _ Hd).
  destruct (type_maximum d) as [[c|e]|]; simpl; [|done|by apply IH].
  destruct (py_add acc c); simpl; [by apply IH|done].
Qed.

Lemma calculate_max_score_sum (config : ScoringConfig N) defs :
  metrics config = Some defs ->
  Forall named defs ->
  Api.calculate_max_score (Some config) = theoretical_maximum defs.
Proof.
  intros Hm Hn. unfold Api.calculate_max_score, Api.truthy, theoretical_maximum.
  rewrite Hm. rewrite (bool_decide_eq_true_2 (Some defs ≠ None)) by done.
  rewrite !orb_true_r. simpl. by apply max_loop_sum.
Qed.
End Maximum.

(** ** Sums *)

Section Sums.
Context {N : Type} `{PyNum N}.

Lemma sum_from_app (acc : N) (l1 l2 : list (result N)) :
  sum_from acc (l1 ++ l2) = (a ← sum_from acc l1; sum_from a l2).
Proof.
  revert acc. induction l1 as [|t l1 IH]; intros acc; simpl; [done|].
  destruct t as [c|e]; simpl; [|done].
  destruct (py_add acc c); simpl; [apply IH | done].
Qed.

(** The maximum of a definition enters the total wherever it stands in the
    configuration. *)
Lemma theoretical_maximum_includes (defs1 defs2 : list (MetricDefinition N))
    (d : MetricDefinition N) :
  theoretical_maximum (defs1 ++ d :: defs2) =
  (a ← theoretical_maximum defs1;
   a' ← match type_maximum d with
        | Some t => c ← t; py_add a c
        | None => Ok a
        end;
   sum_from a' (omap type_maximum defs2)).
Proof.
  unfold theoretical_maximum. rewrite omap_app, sum_from_app. simpl.
  destruct (sum_from _ _) as [a|e]; simpl; [|done].
  by destruct (type_maximum d) as [[c|e]|].
Qed.
End Sums.

(** ** The rows of a scan *)

Section Rows.
Context {N : Type} `{PyNum N}.

Lemma select_records_nil (db : Database N) (id : Z) :
  Forall (fun r => mr_scan_id r ≠ id) (scan_metadata db) ->
  Ingestor.select_records db id = [].
Proof.
  unfold Ingestor.select_records. intros Hall.
  induction Hall as [|r rows Hr _ IH]; simpl; [done|].
  rewrite filter_cons_False by done. exact IH.
Qed.

(** The loop reads the dictionary through [raw_value_of] only. *)
Lemma score_loop_ext (m1 m2 : gmap string (gmap string N))
    (defs : list (MetricDefinition N)) (totals : N * N) :
  (forall source key, Ingestor.raw_value_of m1 source key = Ingestor.raw_value_of m2 source key) ->
  Ingestor.score_loop m1 defs totals = Ingestor.score_loop m2 defs totals.
Proof.
  intros Hext. revert totals. induction defs as [|d defs IH]; intros totals; simpl; [done|].
  assert (Ingestor.score_metric m1 totals d = Ingestor.score_metric m2 totals d) as ->.
  { unfold Ingestor.score_metric.
    destruct (md_source d), (md_key d), (md_weight d), (md_type d); simpl; try done.
    by rewrite Hext. }
  destruct (Ingestor.score_metric m2 totals d); simpl; [apply IH | done].
Qed.

(** A definition whose raw value is the sentinel is passed over. *)
Lemma score_metric_skip (m : gmap string (gmap string N)) (d : MetricDefinition N)
    (source key m_type : string) (weight : N) (totals : N * N) :
  md_source d = Some source -> md_key d = Some key ->
  md_weight d = Some weight -> md_type d = Some m_type ->
  py_eqb (Ingestor.raw_value_of m source key) (of_int (-1)) = true ->
  Ingestor.score_metric m totals d = Ok totals.
Proof.
  intros Hs Hk Hw Ht Hraw. unfold Ingestor.score_metric.
  rewrite Hs, Hk, Hw, Ht. simpl. by rewrite Hraw.
Qed.

Lemma score_loop_skip (m : gmap string (gmap string N))
    (defs1 defs2 : list (MetricDefinition N)) (d : MetricDefinition N) (totals : N * N) :
  (forall totals', Ingestor.score_metric m totals' d = Ok totals') ->
  Ingestor.score_loop m (defs1 ++ d :: defs2) totals =
  Ingestor.score_loop m (defs1 ++ defs2) totals.
Proof.
  intros Hskip. revert totals. induction defs1 as [|d1 defs1 IH]; intros totals; simpl.
  - by rewrite Hskip.
  - destruct (Ingestor.score_metric m totals d1); simpl; [apply IH | done].
Qed.
End Rows.

(** ** The claims on the ingestion path *)

(** C7: when no metric record exists at all for a scan,
    [calculate_final_score] returns the fixed fallback score 0.0; it raises
    nothing, whether the database is reachable or not and whether the
    configuration file exists or not. *)
Theorem no_records_fallback {N : Type} `{PyNum N} (reachable : bool) (db : Database N)
    (file : option (ScoringConfig N)) (id : Z) :
  Forall (fun r => mr_scan_id r ≠ id) (scan_metadata db) ->
  Ingestor.calculate_final_score (Ingestor.get_db_connection reachable db) file id
  = Ok (of_float_lit 0).
Proof.
  intros Hnone. unfold Ingestor.calculate_final_score, Ingestor.get_db_connection, connect.
  destruct reachable; [|done]. by rewrite select_records_nil.
Qed.

(** C10: a stored record whose value parses to exactly -1 is passed over as
    if it were absent: the turn of the loop for the definition of its
    source and key leaves the total score and the total weight unchanged,
    although the record is the one found for that source and key. *)
Theorem sentinel_value_is_skipped {N : Type} `{PyNum N}
    (records : list (string * string * string)) (key value source m_type : string)
    (v weight : N) (d : MetricDefinition N) (totals : N * N) :
  NoDup ((fun r => (r.1.1, r.2)) <$> records) ->
  (key, value, source) ∈ records ->
  py_float value = Some v ->
  py_eqb v (of_int (-1)) = true ->
  md_source d = Some source -> md_key d = Some key ->
  md_weight d = Some weight -> md_type d = Some m_type ->
  parsed_value records source key = Some v ∧
  Ingestor.score_metric (Ingestor.build_metrics_by_source records) totals d = Ok totals.
Proof.
  intros Hnd Hin Hv Hm1 Hs Hk Hw Ht.
  assert (parsed_value records source key = Some v) as Hfound.
  { by rewrite (parsed_value_unique records key value source Hnd Hin). }
  split; [done|].
  eapply score_metric_skip; try done.
  by rewrite raw_value_of_build, Hfound.
Qed.

(** C9: a stored record whose value does not parse as a number is treated
    as absent. The scoring loop runs as on the rows without it, whatever
    the definitions; the definition of its source and key adds nothing to
    the total score nor to the total weight; and when the scan has other
    rows, [calculate_final_score] returns what it returns without the
    record, so that no failure comes from the value. *)
Theorem unparseable_value_is_absent {N : Type} `{PyNumLaws N}
    (records1 records2 : list (string * string * string)) (key value source : string) :
  py_float (N := N) value = None ->
  (forall defs totals,
     Ingestor.score_loop
       (Ingestor.build_metrics_by_source (records1 ++ (key, value, source) :: records2))
       defs totals =
     Ingestor.score_loop (Ingestor.build_metrics_by_source (records1 ++ records2))
       defs totals) ∧
  (forall (d : MetricDefinition N) m_type weight totals,
     md_source d = Some source -> md_key d = Some key ->
     md_weight d = Some weight -> md_type d = Some m_type ->
     (forall value', (key, value', source) ∉ records1 ++ records2) ->
     Ingestor.score_metric
       (Ingestor.build_metrics_by_source (records1 ++ (key, value, source) :: records2))
       totals d = Ok totals) ∧
  (forall (db db' : Database N) file id,
     Ingestor.select_records db id = records1 ++ (key, value, source) :: records2 ->
     Ingestor.select_records db' id = records1 ++ records2 ->
     records1 ++ records2 ≠ [] ->
     Ingestor.calculate_final_score (Some db) file id =
     Ingestor.calculate_final_score (Some db') file id).
Proof.
  intros Hv.
  assert (forall defs totals,
     Ingestor.score_loop
       (Ingestor.build_metrics_by_source (records1 ++ (key, value, source) :: records2))
       defs totals =
     Ingestor.score_loop (Ingestor.build_metrics_by_source (records1 ++ records2))
       defs totals) as Hloop.
  { intros defs totals. apply score_loop_ext. intros s k.
    by rewrite !raw_value_of_build, parsed_value_unparseable. }
  split; [exact Hloop|]. split.
  - intros d m_type weight totals Hs Hk Hw Ht Hno.
    eapply score_metric_skip; try done.
    rewrite raw_value_of_build, parsed_value_unparseable by done.
    rewrite parsed_value_absent by done. apply py_eqb_minus_one.
  - intros db db' file id Hdb Hdb' Hne. unfold Ingestor.calculate_final_score.
    rewrite Hdb, Hdb'.
    destruct (records1 ++ records2) as [|r' rest'] eqn:E2; [done|].
    destruct (records1 ++ (key, value, source) :: records2) as [|r rest] eqn:E1.
    { by destruct records1. }
    destruct (Ingestor.load_scoring_config file); simpl; [|done].
    by rewrite Hloop.
Qed.

(** ** The read path *)

Section ReadPath.
Context {N : Type} `{PyNumLaws N}.
Implicit Types (db : Database N) (r : ScanRecord N).

Lemma scored_for_spec (project : string) r :
  Api.scored_for project r = true <-> project_name r = project ∧ final_score r ≠ None.
Proof.
  unfold Api.scored_for. rewrite andb_true_iff, !bool_decide_eq_true. done.
Qed.

(** The fold over the rows keeps a scored row of the project of greatest
    date, and keeps nothing only when there is none. *)
Lemma select_fold (project : string) (rows : list (ScanRecord N)) :
  match Api.select_latest_scan
          {| project_scans := rows; scan_metadata := []; metadata_scores := [] |} project
  with
  | Some r =>
      r ∈ rows ∧ Api.scored_for project r = true ∧
      forall r', r' ∈ rows -> Api.scored_for project r' = true ->
                 scan_date r' <= scan_date r
  | None => forall r', r' ∈ rows -> Api.scored_for project r' = false
  end.
Proof.
  unfold Api.select_latest_scan. simpl.
  induction rows as [|r0 rows IH] using rev_ind; simpl.
  - by intros r' ?%not_elem_of_nil.
  - rewrite fold_left_app. simpl.
    destruct (fold_left _ rows None) as [b|].
    + destruct IH as (Hin & Hsc & Hmax).
      destruct (Api.scored_for project r0) eqn:E0.
      * destruct (scan_date b <? scan_date r0) eqn:Elt.
        -- apply Z.ltb_lt in Elt. split; [set_solver|]. split; [done|].
           intros r' [Hr'| ->%list_elem_of_singleton]%elem_of_app Hs; [|lia].
           specialize (Hmax r' Hr' Hs). lia.
        -- apply Z.ltb_ge in Elt. split; [set_solver|]. split; [done|].
           intros r' [Hr'| ->%list_elem_of_singleton]%elem_of_app Hs; [|lia].
           by apply Hmax.
      * split; [set_solver|]. split; [done|].
        intros r' [Hr'| ->%list_elem_of_singleton]%elem_of_app Hs; [|congruence].
        by apply Hmax.
    + destruct (Api.scored_for project r0) eqn:E0.
      * split; [set_solver|]. split; [done|].
        intros r' [Hr'| ->%list_elem_of_singleton]%elem_of_app Hs; [|lia].
        specialize (IH r' Hr'). congruence.
      * intros r' [Hr'| ->%list_elem_of_singleton]%elem_of_app; [by apply IH|done].
Qed.

Lemma select_latest_scan_rows db (project : string) :
  Api.select_latest_scan db project =
  Api.select_latest_scan
    {| project_scans := project_scans db; scan_metadata := []; metadata_scores := [] |}
    project.
Proof. done. Qed.

Lemma select_latest_scan_Some db (project : string) r :
  Api.select_latest_scan db project = Some r ->
  r ∈ project_scans db ∧ project_name r = project ∧ final_score r ≠ None ∧
  forall r', r' ∈ project_scans db -> project_name r' = project ->
             final_score r' ≠ None -> scan_date r' <= scan_date r.
Proof.
  rewrite select_latest_scan_rows. intros Hsel.
  pose proof (select_fold project (project_scans db)) as Hfold.
  rewrite Hsel in Hfold. destruct Hfold as (Hin & Hsc & Hmax).
  apply scored_for_spec in Hsc as [? ?]. repeat split; try done.
  intros r' Hin' Hp Hf. apply Hmax; [done|]. by apply scored_for_spec.
Qed.

Lemma select_latest_scan_None db (project : string) :
  Api.select_latest_scan db project = None <->
  ¬ exists r, r ∈ project_scans db ∧ project_name r = project ∧ final_score r ≠ None.
Proof.
  rewrite select_latest_scan_rows.
  pose proof (select_fold project (project_scans db)) as Hfold.
  destruct (Api.select_latest_scan _ _) as [r|].
  - destruct Hfold as (Hin & Hsc & _).
    apply scored_for_spec in Hsc as [? ?]. split; [done|]. intros []. by exists r.
  - split; [|done]. intros _ (r & Hin & Hp & Hf).
    specialize (Hfold r Hin).
    assert (Api.scored_for project r = true) by by apply scored_for_spec.
    congruence.
Qed.

(** The loop of the maximum raises an overflow or a missing name, nothing
    else. *)
Lemma max_loop_raises (defs : list (MetricDefinition N)) (acc : N) (e : exn) :
  Api.max_loop defs acc = Raise e -> e = OverflowError ∨ e = KeyError "name".
Proof.
  revert acc. induction defs as [|d defs IH]; intros acc; simpl; [done|].
  destruct (Api.add_metric_max acc d) as [acc'|e'] eqn:E; simpl; [apply IH|].
  intros [= <-]. revert E. unfold Api.add_metric_max.
  repeat case_decide; try destruct (_ || _); try done;
    repeat (case_bind; try done);
    repeat match goal with
           | Hr : py_mul _ _ = Raise _ |- _ => apply py_mul_raises in Hr as ->
           | Hr : py_add _ _ = Raise _ |- _ => apply py_add_raises in Hr as ->
           end;
    try (intros [= <-]; by left);
    destruct (md_name d); simpl in *; try done; intros [= <-]; try (by left);
    match goal with Hs : Raise _ = Raise _ |- _ => injection Hs as <-; by right end.
Qed.

(** What a 200 response carries. *)
Lemma get_latest_scan_Ok (reachable : bool) db (file : option (ScoringConfig N))
    (project : string) (v : Api.ScanView) :
  Api.get_latest_scan reachable db file project = Ok v ->
  exists r, Api.select_latest_scan db project = Some r ∧
    Api.sv_scan_id v = scan_id r ∧ Api.sv_project_name v = project_name r ∧
    Api.sv_scan_date v = scan_date r ∧ Api.sv_final_score v = final_score r ∧
    match file with
    | Some config =>
        if Api.truthy config
        then Api.calculate_max_score (Some config) = Ok (Api.sv_max_score v) ∧
             Api.sv_scoring_formula v =
               Api.FormulaDetails (description config) (calculation_logic config)
                                  (metrics config)
        else Api.sv_max_score v = of_int 0 ∧
             Api.sv_scoring_formula v = Api.FormulaError "Scoring configuration not found."
    | None => Api.sv_max_score v = of_int 0 ∧
              Api.sv_scoring_formula v = Api.FormulaError "Scoring configuration not found."
    end.
Proof.
  unfold Api.get_latest_scan, Api.get_db_connection, connect.
  remember (@Api.calculate_max_score N _) as cms eqn:Hcms.
  destruct reachable; simpl; [|done].
  destruct (Api.select_latest_scan db project) as [r|]; [|done].
  intros Hv. exists r. split; [done|].
  destruct file as [config|]; simpl in *.
  - destruct (Api.truthy config).
    + destruct (cms (Some config)) as [m|]; simpl in *; [|done].
      by injection Hv as <-.
    + by injection Hv as <-.
  - by injection Hv as <-.
Qed.

Lemma get_latest_scan_raises (db : Database N) (file : option (ScoringConfig N))
    (project : string) (r : ScanRecord N) (e : exn) :
  Api.select_latest_scan db project = Some r ->
  Api.get_latest_scan true db file project = Raise e ->
  e = OverflowError ∨ e = KeyError "name".
Proof.
  unfold Api.get_latest_scan.
  remember (@Api.calculate_max_score N _) as cms eqn:Hcms.
  simpl. intros ->.
  destruct file as [config|]; simpl; [|done].
  destruct (Api.truthy config); [|done].
  destruct (cms (Some config)) as [m|e'] eqn:E; simpl; [done|].
  intros [= <-]. revert E. subst cms. unfold Api.calculate_max_score.
  destruct (negb _); [done|]. destruct (metrics config); [|done].
  apply max_loop_raises.
Qed.
End ReadPath.

(** ** The claims on the two totals *)

(** C4: the theoretical maximum is the sum of the per-type maxima of all the
    definitions of the configuration, the one without data included at its
    place, and the maximum a response carries does not depend on the
    database; a definition whose source and key have no stored record
    leaves the total score and the total weight of the scoring loop
    unchanged. *)
Theorem missing_metric_policy {N : Type} `{PyNumLaws N}
    (records : list (string * string * string)) (config : ScoringConfig N)
    (defs1 defs2 : list (MetricDefinition N)) (d : MetricDefinition N)
    (source key m_type : string) (weight : N) :
  metrics config = Some (defs1 ++ d :: defs2) ->
  Forall named (defs1 ++ d :: defs2) ->
  md_source d = Some source -> md_key d = Some key ->
  md_weight d = Some weight -> md_type d = Some m_type ->
  (forall value, (key, value, source) ∉ records) ->
  Api.calculate_max_score (Some config) = theoretical_maximum (defs1 ++ d :: defs2) ∧
  theoretical_maximum (defs1 ++ d :: defs2) =
    (a ← theoretical_maximum defs1;
     a' ← match type_maximum d with
          | Some t => c ← t; py_add a c
          | None => Ok a
          end;
     sum_from a' (omap type_maximum defs2)) ∧
  (forall (db db' : Database N) project project' v v',
     Api.get_latest_scan true db (Some config) project = Ok v ->
     Api.get_latest_scan true db' (Some config) project' = Ok v' ->
     Api.sv_max_score v = Api.sv_max_score v') ∧
  (forall totals,
     Ingestor.score_metric (Ingestor.build_metrics_by_source records) totals d = Ok totals) ∧
  (forall totals,
     Ingestor.score_loop (Ingestor.build_metrics_by_source records)
       (defs1 ++ d :: defs2) totals =
     Ingestor.score_loop (Ingestor.build_metrics_by_source records)
       (defs1 ++ defs2) totals).
Proof.
  intros Hm Hnamed Hs Hk Hw Ht Hno.
  assert (forall totals,
    Ingestor.score_metric (Ingestor.build_metrics_by_source records) totals d = Ok totals)
    as Hskip.
  { intros totals. eapply score_metric_skip; try done.
    rewrite raw_value_of_build, parsed_value_absent by done. apply py_eqb_minus_one. }
  split; [by apply calculate_max_score_sum|].
  split; [apply theoretical_maximum_includes|].
  split; [|split; [exact Hskip | intros totals; by apply score_loop_skip]].
  intros db db' project project' v v' Hv Hv'.
  apply get_latest_scan_Ok in Hv as (r & _ & _ & _ & _ & _ & Hv).
  apply get_latest_scan_Ok in Hv' as (r' & _ & _ & _ & _ & _ & Hv').
  destruct (Api.truthy config).
  - destruct Hv as [Hv _], Hv' as [Hv' _]. congruence.
  - destruct Hv as [Hv _], Hv' as [Hv' _]. congruence.
Qed.

(** What the loop computes away from its sentinel: for a scan with stored
    records, well-formed definitions and a weight total that does not
    overflow, the final score is the sum, over the definitions whose source
    and key are found among the parseable raw metrics with a value other
    than -1, of the per-type contribution, rounded to two decimals; the
    maximum returned by [calculate_max_score] is the sum of the maxima, not
    rounded. *)
Theorem final_score_rounded_sum {N : Type} `{PyNumLaws N}
    (db : Database N) (id : Z) (config : ScoringConfig N)
    (defs : list (MetricDefinition N)) (w : N) :
  let records := Ingestor.select_records db id in
  records ≠ [] ->
  metrics config = Some defs ->
  Forall well_formed defs ->
  Forall named defs ->
  total_weight true records defs = Ok w ->
  Ingestor.calculate_final_score (Some db) (Some config) id =
    py_round2 <$> total_score true records defs ∧
  (forall s, total_score true records defs = Ok s ->
     exists db', Ingestor.score_scan true true (Some config) db id = Ok db' ∧
       forall r, r ∈ project_scans db' -> scan_id r = id ->
                 final_score r = Some (py_round2 s)) ∧
  (forall (d : MetricDefinition N) weight v,
     let scale_factor := get_default (md_scale_factor d) (of_int 1) in
     let max_score := get_default (md_max_score d) (of_int 100) in
     Ingestor.contribution d "direct" weight v = py_mul v weight ∧
     Ingestor.contribution d "direct_scaled" weight v =
       (x ← py_mul v scale_factor; py_mul x weight) ∧
     Ingestor.contribution d "inverted_scaled" weight v =
       (x ← py_mul v scale_factor; y ← py_sub max_score x;
        py_mul (py_max (of_int 0) y) weight) ∧
     Ingestor.contribution d "inverted_percentage" weight v =
       (y ← py_sub max_score v; py_mul y weight)) ∧
  Api.calculate_max_score (Some config) = theoretical_maximum defs.
Proof.
  intros records Hne Hm Hwf Hnamed Hw.
  assert (Ingestor.calculate_final_score (Some db) (Some config) id =
          py_round2 <$> total_score true records defs) as Hscore.
  { unfold Ingestor.calculate_final_score. fold records.
    destruct records as [|r0 rest] eqn:E; [done|]. simpl. rewrite Hm. simpl.
    rewrite (score_loop_totals _ _ _ _ w Hwf Hw).
    unfold total_score. by destruct (sum_from _ _). }
  split; [exact Hscore|]. split; [|split].
  - intros s Hs. unfold Ingestor.score_scan.
    change (Ingestor.get_db_connection true db) with (Some db).
    rewrite Hscore, Hs. simpl. eexists. split; [done|].
    intros r Hr Hid. by eapply update_final_score_persisted.
  - intros d weight v. apply contribution_by_type.
  - by apply calculate_max_score_sum.
Qed.

(** ** The claims on the read path *)

(** C6: [get_latest_scan] answers with the row of the project that has a
    final score and the greatest date among such rows, so that a scan
    without a score is never returned; whenever such a row exists the
    selection finds one; and the answer is 404 exactly when the project has
    no row with a final score. *)
Theorem latest_scored_scan {N : Type} `{PyNumLaws N}
    (db : Database N) (file : option (ScoringConfig N)) (project : string) :
  (forall v, Api.get_latest_scan true db file project = Ok v ->
     exists r, r ∈ project_scans db ∧ project_name r = project ∧ final_score r ≠ None ∧
       (forall r', r' ∈ project_scans db -> project_name r' = project ->
                   final_score r' ≠ None -> scan_date r' <= scan_date r) ∧
       Api.sv_scan_id v = scan_id r ∧ Api.sv_project_name v = project ∧
       Api.sv_scan_date v = scan_date r ∧ Api.sv_final_score v = final_score r ∧
       Api.sv_final_score v ≠ None) ∧
  ((exists r, r ∈ project_scans db ∧ project_name r = project ∧ final_score r ≠ None) ->
   exists r, Api.select_latest_scan db project = Some r) ∧
  (Api.get_latest_scan true db file project = Raise (HTTPException 404) <->
   ¬ exists r, r ∈ project_scans db ∧ project_name r = project ∧ final_score r ≠ None).
Proof.
  split; [|split].
  - intros v (r & Hsel & Hid & Hp & Hd & Hf & _)%get_latest_scan_Ok.
    apply select_latest_scan_Some in Hsel as (Hin & Hproj & Hscored & Hmax).
    exists r. repeat split; try done; congruence.
  - intros Hex. destruct (Api.select_latest_scan db project) as [r|] eqn:E; [by exists r|].
    by apply select_latest_scan_None in E.
  - rewrite <- select_latest_scan_None. split.
    + intros Hraise. destruct (Api.select_latest_scan db project) as [r|] eqn:E; [|done].
      by destruct (get_latest_scan_raises db file project r _ E Hraise).
    + intros Hnone. unfold Api.get_latest_scan. simpl. by rewrite Hnone.
Qed.

(** C5: when the configuration file is missing, the read endpoint still
    answers 200 for a project with a scored scan, with the degraded formula
    section and a maximum of zero; the ingestion path, for a scan that has
    stored records, raises [FileNotFoundError] out of
    [calculate_final_score] and out of the scoring step of the workflow, and
    no score is written. *)
Theorem missing_config_paths {N : Type} `{PyNum N}
    (db : Database N) (project : string) (r : ScanRecord N) (id : Z) (write_ok : bool) :
  Api.select_latest_scan db project = Some r ->
  Ingestor.select_records db id ≠ [] ->
  (exists v, Api.get_latest_scan true db None project = Ok v ∧
     Api.sv_scan_id v = scan_id r ∧
     Api.sv_max_score v = of_int 0 ∧
     Api.sv_scoring_formula v = Api.FormulaError "Scoring configuration not found.") ∧
  Ingestor.calculate_final_score (Some db) None id = Raise FileNotFoundError ∧
  Ingestor.score_scan true write_ok None db id = Raise FileNotFoundError.
Proof.
  intros Hsel Hrec. split; [|split].
  - unfold Api.get_latest_scan. simpl. rewrite Hsel. simpl. by eexists.
  - unfold Ingestor.calculate_final_score.
    by destruct (Ingestor.select_records db id).
  - unfold Ingestor.score_scan, Ingestor.calculate_final_score. simpl.
    by destruct (Ingestor.select_records db id).
Qed.

(** ** The claims decided by evaluation *)

(** C1: with one [direct_scaled] metric (sonarqube, coverage, weight 2, scale
    factor 1, base maximum 10) and one [inverted_percentage] metric
    (openssf, overall_score, weight 1, maximum 10), in either order and
    whatever their names, and the stored values 7.5 and 6,
    [calculate_final_score] returns 19.0 and [calculate_max_score]
    returns 30. *)
Theorem concrete_scenario (db : Database pynum) (id : Z) (config : ScoringConfig pynum)
    (name1 name2 : string) (defs : list (MetricDefinition pynum)) :
  Ingestor.select_records db id ≡ₚ
    [("coverage", "7.5", "sonarqube"); ("overall_score", "6", "openssf")] ->
  defs ≡ₚ [Sample.coverage name1; Sample.overall name2] ->
  metrics config = Some defs ->
  Ingestor.calculate_final_score (Some db) (Some config) id = Ok (PyFloat 19) ∧
  Api.calculate_max_score (Some config) = Ok (PyInt 30).
Proof.
  intros Hrec Hdefs Hm. split.
  - unfold Ingestor.calculate_final_score, Ingestor.load_scoring_config, read_yaml.
    apply Permutation_sym, Permutation_length_2_inv in Hrec as [-> | ->];
      apply Permutation_sym, Permutation_length_2_inv in Hdefs as [-> | ->];
      simpl; rewrite Hm; reflexivity.
  - unfold Api.calculate_max_score, Api.truthy. rewrite Hm.
    rewrite (bool_decide_eq_true_2 (Some defs ≠ None)) by done.
    rewrite !orb_true_r. simpl.
    apply Permutation_sym, Permutation_length_2_inv in Hdefs as [-> | ->]; reflexivity.
Qed.

(** The two paths agree on the scale factor of a definition that has none:
    it is 1. *)
Lemma scale_factor_default {N : Type} `{PyNum N} (d : MetricDefinition N)
    (m_type : string) (weight v acc : N) :
  md_scale_factor d = None ->
  Ingestor.contribution d m_type weight v =
    Ingestor.contribution (with_parameters d (Some (of_int 1)) (md_max_score d))
      m_type weight v ∧
  Api.add_metric_max acc d =
    Api.add_metric_max acc (with_parameters d (Some (of_int 1)) (md_max_score d)).
Proof.
  intros Hsf. split.
  - unfold Ingestor.contribution, Ingestor.metric_score. simpl. by rewrite Hsf.
  - unfold Api.add_metric_max. simpl. by rewrite Hsf.
Qed.

(** C3: an [inverted_percentage] definition without [max_score], weight 1,
    and the stored value 6. The ingestor scores it 94.0, as it does with a
    maximum of 100, where a maximum of 0 gives -6.0; the API computes the
    maximum 0, as it does with a maximum of 0. *)
Theorem absent_max_score_defaults :
  Ingestor.calculate_final_score (Some Sample.parseable_db)
    (Some (Sample.config_of [Sample.overall_no_max])) 1 = Ok (PyFloat 94) ∧
  Ingestor.calculate_final_score (Some Sample.parseable_db)
    (Some (Sample.config_of [Sample.overall_zero_max])) 1 = Ok (PyFloat (-6)) ∧
  Api.calculate_max_score (Some (Sample.config_of [Sample.overall_no_max])) = Ok (PyInt 0) ∧
  Api.calculate_max_score (Some (Sample.config_of [Sample.overall_zero_max])) = Ok (PyInt 0).
Proof. repeat split; reflexivity. Qed.

(** The maximum is returned as computed: 100 * 0.001953125 is 0.1953125,
    which rounding to two decimals would change. *)
Lemma max_score_not_rounded :
  Api.calculate_max_score (Some (Sample.config_of [Sample.fine_weight]))
    = Ok (PyFloat 0.1953125) ∧
  py_eqb (py_round2 (PyFloat 0.1953125)) (PyFloat 0.1953125) = false.
Proof. split; reflexivity. Qed.

(** C2, the failing input: the only stored record of scan 1 is the check
    Signed-Releases with the value -1, and the only definition is an
    inverted percentage of maximum 10 and weight 1 on it. The record is
    found and parses to -1.0, so the sum over the definitions found among
    the parseable raw metrics is (10 - (-1.0)) * 1 = 11.0, which rounding
    to two decimals leaves. The guard of the loop takes the value for its
    own mark of a missing metric: the code returns 0, and 0 is what is
    written to the row of the scan. *)
Theorem sentinel_collision :
  let records := Ingestor.select_records Sample.sentinel_db 1 in
  let defs := [Sample.signed_releases] in
  records = [("Signed-Releases", "-1", "openssf")] ∧
  parsed_value records "openssf" "Signed-Releases" = Some (PyFloat (-1)) ∧
  py_round2 <$> total_score false records defs = Ok (PyFloat 11) ∧
  Ingestor.calculate_final_score (Some Sample.sentinel_db)
    (Some (Sample.config_of defs)) 1 = Ok (PyInt 0) ∧
  Ingestor.score_scan true true (Some (Sample.config_of defs)) Sample.sentinel_db 1 =
    Ok {| project_scans := [Sample.scan 1 "demo" 100 (Some (PyInt 0))];
          scan_metadata := [Sample.row 1 1 "Signed-Releases" "-1" "openssf"];
          metadata_scores := [] |}.
Proof. cbv zeta. repeat split; reflexivity. Qed.


(** ** Monotonicity, in exact arithmetic *)




(** ** The theorems at sample inputs *)

Lemma no_records_fallback_witness :
  Forall (fun r => mr_scan_id r ≠ 2) (scan_metadata Sample.sentinel_db) ∧
  Ingestor.calculate_final_score (Ingestor.get_db_connection true Sample.sentinel_db) None 2
  = Ok (PyFloat 0).
Proof.
  assert (Forall (fun r => mr_scan_id r ≠ 2) (scan_metadata Sample.sentinel_db)) as Hnone.
  { repeat constructor. simpl. lia. }
  split; [exact Hnone|].
  exact (no_records_fallback true Sample.sentinel_db None 2 Hnone).
Defined.

Lemma sentinel_value_is_skipped_witness :
  let records := Ingestor.select_records Sample.sentinel_db 1 in
  ("Signed-Releases", "-1", "openssf") ∈ records ∧
  py_float "-1" = Some (PyFloat (-1)) ∧
  py_eqb (PyFloat (-1)) (of_int (-1)) = true ∧
  Ingestor.score_metric (Ingestor.build_metrics_by_source records) (PyInt 0, PyInt 0)
    Sample.signed_releases = Ok (PyInt 0, PyInt 0).
Proof.
  cbv zeta.
  assert (NoDup ((fun r : string * string * string => (r.1.1, r.2)) <$>
                 Ingestor.select_records Sample.sentinel_db 1)) as Hnd.
  { apply NoDup_singleton. }
  assert (("Signed-Releases", "-1", "openssf") ∈ Ingestor.select_records Sample.sentinel_db 1)
    as Hin.
  { apply list_elem_of_singleton. reflexivity. }
  split; [exact Hin|]. split; [reflexivity|]. split; [reflexivity|].
  exact (proj2 (sentinel_value_is_skipped _ "Signed-Releases" "-1" "openssf"
                  "inverted_percentage" (PyFloat (-1)) (PyInt 1) Sample.signed_releases
                  (PyInt 0, PyInt 0) Hnd Hin eq_refl eq_refl eq_refl eq_refl eq_refl eq_refl)).
Defined.

Lemma unparseable_value_is_absent_witness :
  py_float (N := pynum) "n/a" = None ∧
  Ingestor.calculate_final_score (Some Sample.unparseable_db) (Some Sample.scenario_config) 1 =
  Ingestor.calculate_final_score (Some Sample.parseable_db) (Some Sample.scenario_config) 1 ∧
  Ingestor.calculate_final_score (Some Sample.parseable_db) (Some Sample.scenario_config) 1 =
  Ok (PyFloat 4).
Proof.
  split; [reflexivity|]. split; [|reflexivity].
  refine (proj2 (proj2 (unparseable_value_is_absent (N := pynum) []
                          [("overall_score", "6", "openssf")] "coverage" "n/a" "sonarqube"
                          eq_refl))
            Sample.unparseable_db Sample.parseable_db (Some Sample.scenario_config) 1
            eq_refl eq_refl _).
  discriminate.
Defined.

Lemma missing_metric_policy_witness :
  let records := Ingestor.select_records Sample.parseable_db 1 in
  (forall value, ("coverage", value, "sonarqube") ∉ records) ∧
  Api.calculate_max_score (Some Sample.scenario_config) = Ok (PyInt 30) ∧
  Ingestor.score_metric (Ingestor.build_metrics_by_source records) (PyInt 0, PyInt 0)
    (Sample.coverage "Coverage") = Ok (PyInt 0, PyInt 0).
Proof.
  cbv zeta.
  assert (forall value : string,
            ("coverage", value, "sonarqube") ∉ Ingestor.select_records Sample.parseable_db 1)
    as Hno.
  { intros value Hin. apply list_elem_of_singleton in Hin. discriminate. }
  assert (Forall (named (N := pynum))
            ([] ++ Sample.coverage "Coverage" :: [Sample.overall "OpenSSF score"])) as Hnamed.
  { repeat constructor; intros _; by eexists. }
  pose proof (missing_metric_policy (Ingestor.select_records Sample.parseable_db 1)
                Sample.scenario_config [] [Sample.overall "OpenSSF score"]
                (Sample.coverage "Coverage") "sonarqube" "coverage" "direct_scaled" (PyInt 2)
                eq_refl Hnamed eq_refl eq_refl eq_refl eq_refl Hno)
    as (Hmax & _ & _ & Hskip & _).
  split; [exact Hno|]. split; [reflexivity|]. apply Hskip.
Defined.

Lemma final_score_rounded_sum_witness :
  let records := Ingestor.select_records Sample.scenario_db 1 in
  let defs := [Sample.coverage "Coverage"; Sample.overall "OpenSSF score"] in
  records ≠ [] ∧
  total_weight true records defs = Ok (PyInt 3) ∧
  total_score true records defs = Ok (PyFloat 19) ∧
  Ingestor.calculate_final_score (Some Sample.scenario_db) (Some Sample.scenario_config) 1 =
    py_round2 <$> total_score true records defs.
Proof.
  cbv zeta.
  assert (Ingestor.select_records Sample.scenario_db 1 ≠ []) as Hne by discriminate.
  assert (Forall (well_formed (N := pynum))
            [Sample.coverage "Coverage"; Sample.overall "OpenSSF score"]) as Hwf.
  { repeat constructor; by eexists. }
  assert (Forall (named (N := pynum))
            [Sample.coverage "Coverage"; Sample.overall "OpenSSF score"]) as Hnamed.
  { repeat constructor; intros _; by eexists. }
  split; [exact Hne|]. split; [reflexivity|]. split; [reflexivity|].
  exact (proj1 (final_score_rounded_sum Sample.scenario_db 1 Sample.scenario_config
                  [Sample.coverage "Coverage"; Sample.overall "OpenSSF score"] (PyInt 3)
                  Hne eq_refl Hwf Hnamed eq_refl)).
Defined.

Lemma latest_scored_scan_witness :
  (exists v, Api.get_latest_scan true Sample.history_db (Some Sample.scenario_config) "demo"
             = Ok v ∧ Api.sv_scan_id v = 2 ∧ Api.sv_final_score v = Some (PyFloat 19)) ∧
  Api.get_latest_scan true Sample.history_db (Some Sample.scenario_config) "ghost"
    = Raise (HTTPException 404) ∧
  ¬ exists r, r ∈ project_scans Sample.history_db ∧
              project_name r = "ghost" ∧ final_score r ≠ None.
Proof.
  split; [|split].
  - eexists. split; [reflexivity|]. split; reflexivity.
  - reflexivity.
  - apply (proj2 (proj2 (latest_scored_scan Sample.history_db
                           (Some Sample.scenario_config) "ghost"))). reflexivity.
Defined.

Lemma missing_config_paths_witness :
  Api.select_latest_scan Sample.history_db "demo"
    = Some (Sample.scan 2 "demo" 200 (Some (PyFloat 19))) ∧
  Ingestor.select_records Sample.history_db 2 ≠ [] ∧
  Ingestor.score_scan true true None Sample.history_db 2 = Raise FileNotFoundError.
Proof.
  assert (Ingestor.select_records Sample.history_db 2 ≠ []) as Hne by discriminate.
  split; [reflexivity|]. split; [exact Hne|].
  exact (proj2 (proj2 (missing_config_paths Sample.history_db "demo"
                         (Sample.scan 2 "demo" 200 (Some (PyFloat 19))) 2 true
                         eq_refl Hne))).
Defined.

Lemma concrete_scenario_witness :
  Ingestor.calculate_final_score (Some Sample.scenario_db) (Some Sample.scenario_config) 1
    = Ok (PyFloat 19) ∧
  Api.calculate_max_score (Some Sample.scenario_config) = Ok (PyInt 30).
Proof.
  apply (concrete_scenario Sample.scenario_db 1 Sample.scenario_config
           "Coverage" "OpenSSF score"
           [Sample.coverage "Coverage"; Sample.overall "OpenSSF score"]);
    reflexivity.
Defined.



(** * The rest of the ingestion and read code *)

(** ** The upsert of [store_metadata_record] *)

Section Upsert.
Context {N : Type}.
Implicit Types (db : Database N) (rows : list MetricRecord) (r : MetricRecord).

Local Abbreviation mkey := (fun r : MetricRecord => (mr_scan_id r, metric_key r, metric_source r)).

Local Abbreviation overwrite id key value source :=
  (fun r : MetricRecord =>
     if Ingestor.same_metric id key source r
     then {| metadata_id := metadata_id r; mr_scan_id := mr_scan_id r;
             metric_key := metric_key r; metric_value := value;
             metric_source := metric_source r |}
     else r).

Lemma same_metric_true (id : Z) (key source : string) r :
  Ingestor.same_metric id key source r = true <-> mkey r = (id, key, source).
Proof.
  unfold Ingestor.same_metric. rewrite bool_decide_eq_true. simpl. split.
  - intros (? & ? & ?). congruence.
  - intros [= ? ? ?]. done.
Qed.

Lemma same_metric_false (id : Z) (key source : string) r :
  Ingestor.same_metric id key source r = false <-> mkey r ≠ (id, key, source).
Proof.
  unfold Ingestor.same_metric. rewrite bool_decide_eq_false. simpl. split.
  - intros Hn [= ? ? ?]. by apply Hn.
  - intros Hn (? & ? & ?). apply Hn. congruence.
Qed.

Lemma overwrite_key (id : Z) (key value source : string) r :
  mkey (overwrite id key value source r) = mkey r.
Proof. cbv beta. by destruct (Ingestor.same_metric id key source r). Qed.

Lemma overwrite_keys (id : Z) (key value source : string) rows :
  mkey <$> (map (overwrite id key value source) rows) = mkey <$> rows.
Proof.
  induction rows as [|r rows IH]; [done|].
  cbn [map fmap list_fmap] in *. f_equal; [|exact IH].
  by destruct (Ingestor.same_metric id key source r).
Qed.

Lemma existsb_same_false (id : Z) (key source : string) rows :
  existsb (Ingestor.same_metric id key source) rows = false <->
  (id, key, source) ∉ mkey <$> rows.
Proof.
  induction rows as [|r rows IH]; simpl.
  - split; [intros _; apply not_elem_of_nil | done].
  - rewrite orb_false_iff, IH, not_elem_of_cons, same_metric_false. cbv beta.
    split; intros [Ha Hb]; (split; [|exact Hb]); intros Heq; apply Ha; by rewrite Heq.
Qed.

Lemma existsb_same_true (id : Z) (key source : string) rows :
  existsb (Ingestor.same_metric id key source) rows = true <->
  (id, key, source) ∈ mkey <$> rows.
Proof.
  destruct (existsb _ rows) eqn:E.
  - split; [intros _|done]. destruct (decide ((id, key, source) ∈ mkey <$> rows)) as [|Hn]; [done|].
    apply existsb_same_false in Hn. congruence.
  - apply existsb_same_false in E. split; [done|]. intros. done.
Qed.

(** The rows after the upsert. *)
Lemma store_rows (fresh : Z) db (id : Z) (key value source : string) :
  scan_metadata (Ingestor.store_metadata_record fresh db id key value source) =
  if existsb (Ingestor.same_metric id key source) (scan_metadata db)
  then map (overwrite id key value source) (scan_metadata db)
  else scan_metadata db ++
       [{| metadata_id := fresh; mr_scan_id := id; metric_key := key;
           metric_value := value; metric_source := source |}].
Proof. done. Qed.

Lemma stored_value_overwrite (id : Z) (key value source : string) rows
    (id' : Z) (key' source' : string) :
  stored_value (map (overwrite id key value source) rows) id' key' source' =
  if bool_decide ((id', key', source') = (id, key, source))
  then (fun _ => value) <$> stored_value rows id' key' source'
  else stored_value rows id' key' source'.
Proof.
  unfold stored_value. induction rows as [|r rows IH]; simpl.
  - by case_bool_decide.
  - destruct (Ingestor.same_metric id key source r) eqn:E1.
    + apply same_metric_true in E1.
      destruct (Ingestor.same_metric id' key' source' r) eqn:E2; simpl.
      * apply same_metric_true in E2.
        assert (Ingestor.same_metric id' key' source'
                  {| metadata_id := metadata_id r; mr_scan_id := mr_scan_id r;
                     metric_key := metric_key r; metric_value := value;
                     metric_source := metric_source r |} = true) as ->
          by by apply same_metric_true.
        simpl. rewrite bool_decide_eq_true_2 by congruence. done.
      * apply same_metric_false in E2.
        assert (Ingestor.same_metric id' key' source'
                  {| metadata_id := metadata_id r; mr_scan_id := mr_scan_id r;
                     metric_key := metric_key r; metric_value := value;
                     metric_source := metric_source r |} = false) as ->
          by by apply same_metric_false.
        exact IH.
    + destruct (Ingestor.same_metric id' key' source' r) eqn:E2; simpl; [|exact IH].
      apply same_metric_false in E1. apply same_metric_true in E2.
      rewrite bool_decide_eq_false_2 by congruence. done.
Qed.

Lemma stored_value_None rows (id : Z) (key source : string) :
  stored_value rows id key source = None <-> (id, key, source) ∉ mkey <$> rows.
Proof.
  rewrite <- existsb_same_false. unfold stored_value.
  induction rows as [|r rows IH]; simpl; [done|].
  destruct (Ingestor.same_metric id key source r); simpl; [done|exact IH].
Qed.

Lemma stored_value_append rows r (id : Z) (key source : string) :
  stored_value (rows ++ [r]) id key source =
  match stored_value rows id key source with
  | Some v => Some v
  | None => if Ingestor.same_metric id key source r then Some (metric_value r) else None
  end.
Proof.
  unfold stored_value. induction rows as [|r0 rows IH]; simpl.
  - by destruct (Ingestor.same_metric id key source r).
  - destruct (Ingestor.same_metric id key source r0); simpl; [done|exact IH].
Qed.

(** What is stored after the upsert: the new value for its scan, key and
    source, and what was stored before for every other. *)
Lemma stored_value_store (fresh : Z) db (id : Z) (key value source : string)
    (id' : Z) (key' source' : string) :
  stored_value (scan_metadata (Ingestor.store_metadata_record fresh db id key value source))
    id' key' source' =
  if bool_decide ((id', key', source') = (id, key, source)) then Some value
  else stored_value (scan_metadata db) id' key' source'.
Proof.
  rewrite store_rows.
  destruct (existsb _ (scan_metadata db)) eqn:E.
  - rewrite stored_value_overwrite. case_bool_decide as Heq; [|done].
    injection Heq as -> -> ->.
    apply existsb_same_true in E.
    destruct (stored_value (scan_metadata db) id key source) eqn:Es; [done|].
    by apply stored_value_None in Es.
  - rewrite stored_value_append. apply existsb_same_false in E.
    case_bool_decide as Heq.
    + injection Heq as -> -> ->.
      apply stored_value_None in E. rewrite E. simpl.
      assert (Ingestor.same_metric id key source
                {| metadata_id := fresh; mr_scan_id := id; metric_key := key;
                   metric_value := value; metric_source := source |} = true) as ->
        by by apply same_metric_true.
      done.
    + destruct (stored_value (scan_metadata db) id' key' source'); [done|].
      assert (Ingestor.same_metric id' key' source'
                {| metadata_id := fresh; mr_scan_id := id; metric_key := key;
                   metric_value := value; metric_source := source |} = false) as ->.
      { apply same_metric_false. simpl. congruence. }
      done.
Qed.

(** The upsert keeps the uniqueness constraint and the other tables. *)
Lemma store_unique (fresh : Z) db (id : Z) (key value source : string) :
  unique_metrics (scan_metadata db) ->
  unique_metrics
    (scan_metadata (Ingestor.store_metadata_record fresh db id key value source)) ∧
  project_scans (Ingestor.store_metadata_record fresh db id key value source)
    = project_scans db ∧
  metadata_scores (Ingestor.store_metadata_record fresh db id key value source)
    = metadata_scores db.
Proof.
  intros Hu. split; [|done]. unfold unique_metrics in *. rewrite store_rows.
  destruct (existsb _ (scan_metadata db)) eqn:E.
  - by rewrite overwrite_keys.
  - apply existsb_same_false in E. rewrite fmap_app. simpl.
    apply NoDup_app. split; [done|]. split; [|apply NoDup_singleton].
    intros k Hk ->%list_elem_of_singleton. done.
Qed.

(** X1: the upsert keeps the uniqueness of (scan, key, source) among the
    rows of [scan_metadata], touches neither the scans nor the per-metric
    scores, and what is then stored for its scan, key and source is the
    value given, whether a row was there before or not. *)
Theorem store_keeps_unique (fresh : Z) db (id : Z) (key value source : string) :
  unique_metrics (scan_metadata db) ->
  unique_metrics
    (scan_metadata (Ingestor.store_metadata_record fresh db id key value source)) ∧
  project_scans (Ingestor.store_metadata_record fresh db id key value source)
    = project_scans db ∧
  metadata_scores (Ingestor.store_metadata_record fresh db id key value source)
    = metadata_scores db ∧
  stored_value (scan_metadata (Ingestor.store_metadata_record fresh db id key value source))
    id key source = Some value.
Proof.
  intros Hu.
  destruct (store_unique fresh db id key value source Hu) as (Hu' & Hp & Hs).
  split; [exact Hu'|]. split; [exact Hp|]. split; [exact Hs|].
  rewrite stored_value_store. by rewrite bool_decide_eq_true_2.
Qed.

Lemma filter_none {A : Type} (P : A -> Prop) `{forall x, Decision (P x)} (l : list A) :
  (forall x, x ∈ l -> ¬ P x) -> filter P l = [].
Proof.
  induction l as [|x l IH]; intros Hall; [done|].
  rewrite filter_cons_False by (apply Hall; left).
  apply IH. intros y Hy. apply Hall. by right.
Qed.

(** Under the uniqueness constraint, what is stored is held by one row. *)
Lemma stored_value_one_row rows (id : Z) (key value source : string) :
  unique_metrics rows ->
  stored_value rows id key source = Some value ->
  exists r, filter (fun r => mkey r = (id, key, source)) rows = [r] ∧ metric_value r = value.
Proof.
  unfold unique_metrics, stored_value.
  induction rows as [|r rows IH]; simpl; [done|].
  intros [Hfresh Hu]%NoDup_cons.
  destruct (Ingestor.same_metric id key source r) eqn:E; simpl.
  - apply same_metric_true in E. intros [= <-]. exists r.
    rewrite filter_cons_True by done. split; [|done]. f_equal.
    apply filter_none. intros r' Hin Hr'.
    apply Hfresh. rewrite E, <- Hr'. apply list_elem_of_fmap. by exists r'.
  - apply same_metric_false in E. intros Hv.
    destruct (IH Hu Hv) as (r' & Hf & Hval). exists r'.
    by rewrite filter_cons_False.
Qed.
End Upsert.

(** ** From the table to the scoring dictionary *)

Section Records.
Context {N : Type} `{PyNum N}.
Implicit Types (db : Database N) (rows : list MetricRecord) (r : MetricRecord).
Implicit Types (records : list (string * string * string)).

Lemma select_records_elem db (id : Z) (key value source : string) :
  (key, value, source) ∈ Ingestor.select_records db id <->
  exists r, r ∈ scan_metadata db ∧ mr_scan_id r = id ∧ metric_key r = key ∧
            metric_value r = value ∧ metric_source r = source.
Proof.
  unfold Ingestor.select_records. change (map ?f ?l) with (f <$> l).
  rewrite list_elem_of_fmap. split.
  - intros (r & [= -> -> ->] & [? ?]%list_elem_of_filter). by exists r.
  - intros (r & Hin & Hid & <- & <- & <-). exists r. split; [done|].
    by apply list_elem_of_filter.
Qed.

Lemma select_records_unique db (id : Z) :
  unique_metrics (scan_metadata db) ->
  NoDup ((fun rec : string * string * string => (rec.1.1, rec.2)) <$>
         Ingestor.select_records db id).
Proof.
  unfold unique_metrics, Ingestor.select_records.
  induction (scan_metadata db) as [|r rows IH]; [intros _; apply NoDup_nil_2|].
  rewrite fmap_cons. intros [Hfresh Hu]%NoDup_cons.
  destruct (decide (mr_scan_id r = id)) as [Hid|Hid].
  - rewrite filter_cons_True by done. simpl. apply NoDup_cons. split; [|by apply IH].
    intros Hin. apply Hfresh.
    apply list_elem_of_fmap in Hin as ([[k v] s] & [= Hk Hs] & Hin).
    change (map ?f ?l) with (f <$> l) in Hin.
    apply list_elem_of_fmap in Hin as (r' & [= -> -> ->] & [Hid' Hin']%list_elem_of_filter).
    apply list_elem_of_fmap. exists r'. split; [|done]. congruence.
  - rewrite filter_cons_False by done. by apply IH.
Qed.

Lemma stored_value_elem db (id : Z) (key value source : string) :
  stored_value (scan_metadata db) id key source = Some value ->
  (key, value, source) ∈ Ingestor.select_records db id.
Proof.
  unfold stored_value. destruct (find _ _) as [r|] eqn:E; [|done].
  intros [= <-]. apply find_some in E as [Hin Hsame].
  apply same_metric_true in Hsame. injection Hsame as ? ? ?.
  apply select_records_elem. exists r. by rewrite <- list_elem_of_In in Hin.
Qed.

(** What the scoring loop finds for a source and key is the parse of what
    the table stores for them. *)
Lemma parsed_value_stored db (id : Z) (key source : string) :
  unique_metrics (scan_metadata db) ->
  parsed_value (Ingestor.select_records db id) source key =
  stored_value (scan_metadata db) id key source ≫= py_float.
Proof.
  intros Hu. destruct (stored_value (scan_metadata db) id key source) as [v|] eqn:E.
  - simpl. apply parsed_value_unique; [by apply select_records_unique|].
    by apply stored_value_elem.
  - simpl. apply parsed_value_absent. intros v (r & Hin & Hid & Hk & _ & Hs)%select_records_elem.
    apply stored_value_None in E. apply E. apply list_elem_of_fmap. exists r.
    split; [congruence|done].
Qed.

Lemma key_in_records records (source key : string) :
  (exists value, (key, value, source) ∈ records) ∨
  (forall value, (key, value, source) ∉ records).
Proof.
  induction records as [|[[k v] s] records IH].
  - right. intros value. apply not_elem_of_nil.
  - destruct (decide (k = key ∧ s = source)) as [[-> ->]|Hne].
    + left. exists v. left.
    + destruct IH as [[value Hin]|Hno].
      * left. exists value. by right.
      * right. intros value [[= -> -> ->]|Hin]%elem_of_cons; [by apply Hne|by eapply Hno].
Qed.

(** With one row per key and source, the order of the rows does not
    matter to what is found. *)
Lemma parsed_value_permutation records records' (source key : string) :
  NoDup ((fun rec : string * string * string => (rec.1.1, rec.2)) <$> records) ->
  records ≡ₚ records' ->
  parsed_value (N := N) records source key = parsed_value records' source key.
Proof.
  intros Hnd Hperm.
  assert (NoDup ((fun rec : string * string * string => (rec.1.1, rec.2)) <$> records'))
    as Hnd' by by rewrite <- Hperm.
  destruct (key_in_records records source key) as [[value Hin]|Hno].
  - rewrite (parsed_value_unique records key value source Hnd Hin).
    symmetry. apply parsed_value_unique; [done|]. by rewrite <- Hperm.
  - rewrite parsed_value_absent by done. symmetry. apply parsed_value_absent.
    intros value Hin. apply (Hno value). by rewrite Hperm.
Qed.

(** The score is a function of what the loop finds, and of whether the
    scan has rows at all. *)
Lemma calculate_final_score_ext db db' (file : option (ScoringConfig N)) (id : Z) :
  (Ingestor.select_records db id = [] <-> Ingestor.select_records db' id = []) ->
  (forall source key,
     parsed_value (N := N) (Ingestor.select_records db id) source key =
     parsed_value (Ingestor.select_records db' id) source key) ->
  Ingestor.calculate_final_score (Some db) file id =
  Ingestor.calculate_final_score (Some db') file id.
Proof.
  intros Hnil Hfound. unfold Ingestor.calculate_final_score.
  destruct (Ingestor.select_records db id) as [|rec records] eqn:E;
    destruct (Ingestor.select_records db' id) as [|rec' records'] eqn:E'; try done.
  - by destruct Hnil as [Hnil _]; specialize (Hnil eq_refl).
  - by destruct Hnil as [_ Hnil]; specialize (Hnil eq_refl).
  - destruct (Ingestor.load_scoring_config file); simpl; [|done].
    rewrite (score_loop_ext _ (Ingestor.build_metrics_by_source (rec' :: records'))); [done|].
    intros source key. by rewrite !raw_value_of_build, Hfound.
Qed.

(** X2: the score does not depend on the order in which the rows of
    [scan_metadata] come back from the query, when the table obeys its
    uniqueness constraint. *)
Theorem row_order_is_irrelevant db db' (file : option (ScoringConfig N)) (id : Z) :
  unique_metrics (scan_metadata db) ->
  scan_metadata db ≡ₚ scan_metadata db' ->
  Ingestor.calculate_final_score (Some db) file id =
  Ingestor.calculate_final_score (Some db') file id.
Proof.
  intros Hu Hperm.
  assert (Ingestor.select_records db id ≡ₚ Ingestor.select_records db' id) as Hrec.
  { unfold Ingestor.select_records. apply Permutation_map. by rewrite Hperm. }
  apply calculate_final_score_ext.
  - split; intros Hnil; rewrite Hnil in Hrec.
    + by apply Permutation_nil_l in Hrec.
    + by apply Permutation_nil_r in Hrec.
  - intros source key. apply parsed_value_permutation; [|done].
    by apply select_records_unique.
Qed.

(** The rows of a scan are not touched by an upsert for another scan. *)
Lemma select_records_store_other (fresh : Z) db (id id' : Z) (key value source : string) :
  id' ≠ id ->
  Ingestor.select_records (Ingestor.store_metadata_record fresh db id' key value source) id
  = Ingestor.select_records db id.
Proof.
  intros Hne. unfold Ingestor.select_records at 1. rewrite store_rows.
  unfold Ingestor.select_records. f_equal.
  destruct (existsb _ (scan_metadata db)).
  - induction (scan_metadata db) as [|r rows IH]; [done|]. simpl.
    destruct (Ingestor.same_metric id' key source r) eqn:E.
    + apply same_metric_true in E. injection E as Hid _ _.
      rewrite !filter_cons_False by (simpl; congruence). exact IH.
    + destruct (decide (mr_scan_id r = id)).
      * rewrite !filter_cons_True by done. by rewrite IH.
      * rewrite !filter_cons_False by done. exact IH.
  - rewrite filter_app. rewrite (filter_cons_False _ _ []) by (simpl; congruence).
    by rewrite filter_nil, app_nil_r.
Qed.

(** X3: storing a metric of one scan, creating a scan or writing a final
    score never changes the score computed for another scan. *)
Theorem other_scans_do_not_matter db (file : option (ScoringConfig N)) (id id' : Z)
    (fresh now : Z) (key value source project : string) (s : N) :
  id' ≠ id ->
  Ingestor.calculate_final_score
    (Some (Ingestor.store_metadata_record fresh db id' key value source)) file id =
  Ingestor.calculate_final_score (Some db) file id ∧
  Ingestor.calculate_final_score
    (Some (Ingestor.create_scan_record fresh now db project).1) file id =
  Ingestor.calculate_final_score (Some db) file id ∧
  Ingestor.calculate_final_score (Some (Ingestor.update_final_score db id' s)) file id =
  Ingestor.calculate_final_score (Some db) file id.
Proof.
  intros Hne. split; [|done].
  unfold Ingestor.calculate_final_score. by rewrite select_records_store_other.
Qed.


(** X5: storing twice for the same scan, key and source leaves exactly one
    row for them, holding the later value, and every other stored value as
    it was. *)
Theorem upsert_overwrites (fresh1 fresh2 : Z) db (id : Z) (key v1 v2 source : string) :
  unique_metrics (scan_metadata db) ->
  let db2 := Ingestor.store_metadata_record fresh2
               (Ingestor.store_metadata_record fresh1 db id key v1 source)
               id key v2 source in
  unique_metrics (scan_metadata db2) ∧
  (exists r,
     filter (fun r => (mr_scan_id r, metric_key r, metric_source r) = (id, key, source))
            (scan_metadata db2) = [r] ∧ metric_value r = v2) ∧
  (forall id' key' source', (id', key', source') ≠ (id, key, source) ->
     stored_value (scan_metadata db2) id' key' source' =
     stored_value (scan_metadata db) id' key' source').
Proof.
  intros Hu db2.
  pose proof (store_unique fresh1 db id key v1 source Hu) as [Hu1 _].
  pose proof (store_unique fresh2 _ id key v2 source Hu1) as [Hu2 _].
  split; [exact Hu2|]. split.
  - apply stored_value_one_row; [exact Hu2|].
    unfold db2. rewrite stored_value_store. by rewrite bool_decide_eq_true_2.
  - intros id' key' source' Hne. unfold db2.
    rewrite !stored_value_store. by rewrite bool_decide_eq_false_2.
Qed.
End Records.

(** ** The two collectors *)

Section Collectors.
Context {N : Type} `{PyNum N}.
Implicit Types (db : Database N) (w : Ingestor.Outside) (m : Ingestor.Measure).
Implicit Types (measures : list Ingestor.Measure).

(** A batch of complete measures is stored whole: afterwards the table
    holds, for the scan and source of the batch, the last value of each
    name, and everything else as before. *)
Lemma store_all_complete (name_key value_key source : string) measures (seq : Z) db (id : Z) :
  Forall complete measures ->
  unique_metrics (scan_metadata db) ->
  exists db',
    Ingestor.store_all name_key value_key source seq db id measures = Ok db' ∧
    unique_metrics (scan_metadata db') ∧
    project_scans db' = project_scans db ∧
    metadata_scores db' = metadata_scores db ∧
    forall id' key' source',
      stored_value (scan_metadata db') id' key' source' =
      after_batch (Some measures) id source (stored_value (scan_metadata db))
        id' key' source'.
Proof.
  intros Hall. revert seq db.
  induction Hall as [|m measures ([name Hn] & [value Hv]) _ IH]; intros seq db Hu.
  - exists db. repeat split; try done.
    intros id' key' source'. unfold after_batch. simpl. by case_bool_decide.
  - simpl. rewrite Hn, Hv. simpl.
    pose proof (store_unique seq db id name value source Hu) as (Hu1 & Hp1 & Hs1).
    destruct (IH (seq + 1) _ Hu1) as (db' & Hok & Hu' & Hp & Hs & Hval).
    exists db'. split; [exact Hok|]. split; [exact Hu'|].
    split; [congruence|]. split; [congruence|].
    intros id' key' source'. rewrite Hval. unfold after_batch.
    rewrite stored_value_store.
    case_bool_decide as Hsrc.
    + destruct Hsrc as [-> ->].
      destruct (written measures key') as [v|]; [done|].
      destruct (decide (name = key')) as [->|Hne].
      * by rewrite !bool_decide_eq_true_2 by done.
      * rewrite !bool_decide_eq_false_2 by congruence. done.
    + rewrite bool_decide_eq_false_2; [done|].
      intros [= -> _ ->]. by apply Hsrc.
Qed.

(** A batch with a measure that lacks a key raises, whatever the
    database. *)
Lemma store_all_incomplete (name_key value_key source : string) measures (seq : Z) db (id : Z) :
  ¬ Forall complete measures ->
  exists e, Ingestor.store_all name_key value_key source seq db id measures = Raise e.
Proof.
  revert seq db. induction measures as [|m measures IH]; intros seq db Hno.
  - destruct Hno. constructor.
  - simpl. destruct (Ingestor.m_name m) as [name|] eqn:Hn; simpl; [|by eexists].
    destruct (Ingestor.m_value m) as [value|] eqn:Hv; simpl; [|by eexists].
    apply IH. intros Hall. apply Hno. constructor; [|done].
    split; [by rewrite Hn|by rewrite Hv].
Qed.

Local Abbreviation sonarqube_task w id :=
  (fun db : Database N =>
     Ingestor.collect_sonarqube_metrics (Ingestor.sonarqube_token w)
       (Ingestor.db_up_sonarqube w) (Ingestor.sonarqube_reply w)
       (Ingestor.sonarqube_seq w) db id).

Local Abbreviation openssf_task w id :=
  (fun db : Database N =>
     Ingestor.collect_openssf_metrics (Ingestor.scorecard_token w)
       (Ingestor.db_up_openssf w) (Ingestor.scorecard_run w)
       (Ingestor.openssf_seq w) db id).

(** A collector that does not commit leaves the database as it was. *)
Lemma submit_sonarqube_none w db (id : Z) :
  sonarqube_batch w = None -> Ingestor.submit (sonarqube_task w id) db = db.
Proof.
  unfold sonarqube_batch, Ingestor.submit, Ingestor.collect_sonarqube_metrics,
    Ingestor.get_db_connection, connect.
  destruct (bool_decide (Ingestor.sonarqube_token w = "")); [done|].
  destruct (Ingestor.db_up_sonarqube w); simpl; [|done].
  destruct (Ingestor.sonarqube_reply w) as [measures|]; [|done].
  case_bool_decide as Hall; [done|]. intros _.
  by destruct (store_all_incomplete "metric" "value" "sonarqube" measures
                 (Ingestor.sonarqube_seq w) db id Hall) as [e ->].
Qed.

Lemma submit_openssf_none w db (id : Z) :
  openssf_batch w = None -> Ingestor.submit (openssf_task w id) db = db.
Proof.
  unfold openssf_batch, Ingestor.submit, Ingestor.collect_openssf_metrics,
    Ingestor.get_db_connection, connect.
  destruct (bool_decide (Ingestor.scorecard_token w = "")); [done|].
  destruct (Ingestor.db_up_openssf w); simpl; [|done].
  destruct (Ingestor.scorecard_run w) as [| | |overall checks]; try done.
  case_bool_decide as Hall; [done|]. intros _.
  by destruct (store_all_incomplete "name" "score" "openssf" (get_default checks [])
                 (Ingestor.openssf_seq w + 1)
                 (Ingestor.store_metadata_record (Ingestor.openssf_seq w) db id
                    "overall_score" (get_default overall "0") "openssf") id Hall) as [e ->].
Qed.

(** What each collector leaves in the database. *)
Lemma submit_sonarqube_effect w db (id : Z) :
  unique_metrics (scan_metadata db) ->
  let db' := Ingestor.submit (sonarqube_task w id) db in
  unique_metrics (scan_metadata db') ∧
  project_scans db' = project_scans db ∧
  metadata_scores db' = metadata_scores db ∧
  forall id' key' source',
    stored_value (scan_metadata db') id' key' source' =
    after_batch (sonarqube_batch w) id "sonarqube" (stored_value (scan_metadata db))
      id' key' source'.
Proof.
  intros Hu db'. destruct (sonarqube_batch w) as [batch|] eqn:E.
  - unfold db'. revert E.
    unfold sonarqube_batch, Ingestor.submit, Ingestor.collect_sonarqube_metrics,
      Ingestor.get_db_connection, connect.
    destruct (bool_decide (Ingestor.sonarqube_token w = "")); [done|].
    destruct (Ingestor.db_up_sonarqube w); simpl; [|done].
    destruct (Ingestor.sonarqube_reply w) as [measures|]; [|done].
    case_bool_decide as Hall; [|done]. intros [= <-].
    destruct (store_all_complete "metric" "value" "sonarqube" measures
                (Ingestor.sonarqube_seq w) db id Hall Hu) as (db1 & -> & ? & ? & ? & ?).
    done.
  - unfold db'. rewrite submit_sonarqube_none by done. done.
Qed.

Lemma submit_openssf_effect w db (id : Z) :
  unique_metrics (scan_metadata db) ->
  let db' := Ingestor.submit (openssf_task w id) db in
  unique_metrics (scan_metadata db') ∧
  project_scans db' = project_scans db ∧
  metadata_scores db' = metadata_scores db ∧
  forall id' key' source',
    stored_value (scan_metadata db') id' key' source' =
    after_batch (openssf_batch w) id "openssf" (stored_value (scan_metadata db))
      id' key' source'.
Proof.
  intros Hu db'. destruct (openssf_batch w) as [batch|] eqn:E.
  - unfold db'. revert E.
    unfold openssf_batch, Ingestor.submit, Ingestor.collect_openssf_metrics,
      Ingestor.get_db_connection, connect.
    destruct (bool_decide (Ingestor.scorecard_token w = "")); [done|].
    destruct (Ingestor.db_up_openssf w); simpl; [|done].
    destruct (Ingestor.scorecard_run w) as [| | |overall checks]; try done.
    case_bool_decide as Hall; [|done]. intros [= <-].
    assert (Forall complete
              ({| Ingestor.m_name := Some "overall_score";
                  Ingestor.m_value := Some (get_default overall "0") |}
               :: get_default checks [])) as Hall'.
    { constructor; [|done]. split; by eexists. }
    destruct (store_all_complete "name" "score" "openssf" _
                (Ingestor.openssf_seq w) db id Hall' Hu) as (db1 & Hok & ? & ? & ? & ?).
    simpl in Hok. rewrite Hok. done.
  - unfold db'. rewrite submit_openssf_none by done. done.
Qed.

Lemma after_batch_ext (batch : option (list Ingestor.Measure)) (id : Z) (source : string)
    (f g : Z -> string -> string -> option string) (id' : Z) (key' source' : string) :
  (forall i k s, f i k s = g i k s) ->
  after_batch batch id source f id' key' source' =
  after_batch batch id source g id' key' source'.
Proof.
  intros Hfg. unfold after_batch. destruct batch as [measures|]; [|done].
  case_bool_decide; [|done]. by destruct (written measures key').
Qed.

(** Batches under different sources do not see each other. *)
Lemma after_batch_comm (b1 b2 : option (list Ingestor.Measure)) (id : Z)
    (source1 source2 : string) (f : Z -> string -> string -> option string)
    (id' : Z) (key' source' : string) :
  source1 ≠ source2 ->
  after_batch b1 id source1 (after_batch b2 id source2 f) id' key' source' =
  after_batch b2 id source2 (after_batch b1 id source1 f) id' key' source'.
Proof.
  intros Hne. unfold after_batch. destruct b1 as [m1|], b2 as [m2|]; try done.
  repeat case_bool_decide; try done.
  destruct_and!. congruence.
Qed.

(** What the two collectors leave in the database, in either order of
    their commits. *)
Lemma collect_both_effect w db (id : Z) :
  unique_metrics (scan_metadata db) ->
  unique_metrics (scan_metadata (Ingestor.collect_both w db id)) ∧
  project_scans (Ingestor.collect_both w db id) = project_scans db ∧
  metadata_scores (Ingestor.collect_both w db id) = metadata_scores db ∧
  forall id' key' source',
    stored_value (scan_metadata (Ingestor.collect_both w db id)) id' key' source' =
    after_batch (openssf_batch w) id "openssf"
      (after_batch (sonarqube_batch w) id "sonarqube" (stored_value (scan_metadata db)))
      id' key' source'.
Proof.
  intros Hu. unfold Ingestor.collect_both.
  destruct (Ingestor.sonarqube_first w).
  - destruct (submit_sonarqube_effect w db id Hu) as (Hu1 & Hp1 & Hs1 & Hv1).
    destruct (submit_openssf_effect w _ id Hu1) as (Hu2 & Hp2 & Hs2 & Hv2).
    split; [exact Hu2|]. split; [congruence|]. split; [congruence|].
    intros id' key' source'. rewrite Hv2. apply after_batch_ext. exact Hv1.
  - destruct (submit_openssf_effect w db id Hu) as (Hu1 & Hp1 & Hs1 & Hv1).
    destruct (submit_sonarqube_effect w _ id Hu1) as (Hu2 & Hp2 & Hs2 & Hv2).
    split; [exact Hu2|]. split; [congruence|]. split; [congruence|].
    intros id' key' source'. rewrite Hv2.
    rewrite (after_batch_ext _ _ _ _ _ _ _ _ Hv1).
    by apply after_batch_comm.
Qed.

(** X6: what a turn collects. After the two collectors the table obeys its
    uniqueness constraint and holds, for the scan, under each source that
    committed, the last value of each name of its batch (the overall score
    first for the scorecard, 0 when the output has none), and every other
    stored value as before; the scans and the per-metric scores are not
    touched. *)
Theorem collected_values w db (id : Z) :
  unique_metrics (scan_metadata db) ->
  unique_metrics (scan_metadata (Ingestor.collect_both w db id)) ∧
  project_scans (Ingestor.collect_both w db id) = project_scans db ∧
  metadata_scores (Ingestor.collect_both w db id) = metadata_scores db ∧
  forall id' key' source',
    stored_value (scan_metadata (Ingestor.collect_both w db id)) id' key' source' =
    after_batch (openssf_batch w) id "openssf"
      (after_batch (sonarqube_batch w) id "sonarqube" (stored_value (scan_metadata db)))
      id' key' source'.
Proof.
  exact (collect_both_effect w db id).
Qed.
End Collectors.

(** ** One turn of the workflow *)

Section Turn.
Context {N : Type} `{PyNumLaws N}.
Implicit Types (db : Database N) (w : Ingestor.Outside).

Lemma sonarqube_batch_None w :
  Ingestor.sonarqube_token w = "" ∨ Ingestor.db_up_sonarqube w = false ∨
  Ingestor.sonarqube_reply w = None ∨
  (exists measures, Ingestor.sonarqube_reply w = Some measures ∧ ¬ Forall complete measures) ->
  sonarqube_batch w = None.
Proof.
  unfold sonarqube_batch. intros [Ht|[Hd|[Hr|(measures & Hr & Hbad)]]].
  - by rewrite bool_decide_eq_true_2.
  - rewrite Hd. by case_bool_decide.
  - rewrite Hr. case_bool_decide; [done|]. by destruct (negb _).
  - rewrite Hr. case_bool_decide; [done|]. destruct (negb _); [done|].
    by rewrite bool_decide_eq_false_2.
Qed.

Lemma openssf_batch_None w :
  Ingestor.scorecard_token w = "" ∨ Ingestor.db_up_openssf w = false ∨
  Ingestor.scorecard_run w = Ingestor.RunFailed ∨
  Ingestor.scorecard_run w = Ingestor.NonZeroExit ∨
  Ingestor.scorecard_run w = Ingestor.InvalidJson ∨
  (exists overall checks, Ingestor.scorecard_run w = Ingestor.Scorecard overall (Some checks) ∧
                          ¬ Forall complete checks) ->
  openssf_batch w = None.
Proof.
  unfold openssf_batch. intros [Ht|[Hd|[Hr|[Hr|[Hr|(overall & checks & Hr & Hbad)]]]]].
  - by rewrite bool_decide_eq_true_2.
  - rewrite Hd. by case_bool_decide.
  - rewrite Hr. case_bool_decide; [done|]. by destruct (negb _).
  - rewrite Hr. case_bool_decide; [done|]. by destruct (negb _).
  - rewrite Hr. case_bool_decide; [done|]. by destruct (negb _).
  - rewrite Hr. case_bool_decide; [done|]. destruct (negb _); [done|].
    by rewrite bool_decide_eq_false_2.
Qed.

(** X7: a source that fails, in whatever way (no token, no database
    connection, a transport or process failure, output that is not JSON, or
    an element without one of its keys, even after good ones), stores
    nothing, and the two collectors together leave exactly the database that
    the other source alone produces. *)
Theorem failing_source_is_isolated w db (id : Z) :
  (Ingestor.sonarqube_token w = "" ∨ Ingestor.db_up_sonarqube w = false ∨
   Ingestor.sonarqube_reply w = None ∨
   (exists measures, Ingestor.sonarqube_reply w = Some measures ∧
                     ¬ Forall complete measures) ->
   Ingestor.collect_both w db id =
   Ingestor.submit
     (fun db => Ingestor.collect_openssf_metrics (Ingestor.scorecard_token w)
                  (Ingestor.db_up_openssf w) (Ingestor.scorecard_run w)
                  (Ingestor.openssf_seq w) db id) db) ∧
  (Ingestor.scorecard_token w = "" ∨ Ingestor.db_up_openssf w = false ∨
   Ingestor.scorecard_run w = Ingestor.RunFailed ∨
   Ingestor.scorecard_run w = Ingestor.NonZeroExit ∨
   Ingestor.scorecard_run w = Ingestor.InvalidJson ∨
   (exists overall checks,
      Ingestor.scorecard_run w = Ingestor.Scorecard overall (Some checks) ∧
      ¬ Forall complete checks) ->
   Ingestor.collect_both w db id =
   Ingestor.submit
     (fun db => Ingestor.collect_sonarqube_metrics (Ingestor.sonarqube_token w)
                  (Ingestor.db_up_sonarqube w) (Ingestor.sonarqube_reply w)
                  (Ingestor.sonarqube_seq w) db id) db).
Proof.
  split; intros Hfail.
  - apply sonarqube_batch_None in Hfail. unfold Ingestor.collect_both.
    destruct (Ingestor.sonarqube_first w); by rewrite submit_sonarqube_none.
  - apply openssf_batch_None in Hfail. unfold Ingestor.collect_both.
    destruct (Ingestor.sonarqube_first w); by rewrite submit_openssf_none.
Qed.

Lemma select_records_nil_stored db (id : Z) :
  Ingestor.select_records db id = [] <->
  forall key source, stored_value (scan_metadata db) id key source = None.
Proof.
  split.
  - intros Hnil key source.
    destruct (stored_value (scan_metadata db) id key source) as [v|] eqn:E; [|done].
    apply stored_value_elem in E. rewrite Hnil in E. by apply not_elem_of_nil in E.
  - intros Hnone. destruct (Ingestor.select_records db id) as [|[[k v] s] records] eqn:E; [done|].
    assert ((k, v, s) ∈ Ingestor.select_records db id) as Hin by (rewrite E; left).
    apply select_records_elem in Hin as (r & Hin & Hid & Hk & Hv & Hs).
    specialize (Hnone k s). apply stored_value_None in Hnone.
    destruct Hnone. apply list_elem_of_fmap. exists r. split; [congruence|done].
Qed.

(** Two databases that store the same values for a scan give it the same
    score. *)
Lemma calculate_final_score_stored db db' (file : option (ScoringConfig N)) (id : Z) :
  unique_metrics (scan_metadata db) ->
  unique_metrics (scan_metadata db') ->
  (forall key source,
     stored_value (scan_metadata db) id key source =
     stored_value (scan_metadata db') id key source) ->
  Ingestor.calculate_final_score (Some db) file id =
  Ingestor.calculate_final_score (Some db') file id.
Proof.
  intros Hu Hu' Hsame. apply calculate_final_score_ext.
  - rewrite !select_records_nil_stored. split; intros Hnone key source.
    + by rewrite <- Hsame.
    + by rewrite Hsame.
  - intros source key. by rewrite !parsed_value_stored, Hsame.
Qed.

(** X8: the two collectors write under different source labels, so the
    order in which their transactions commit changes neither what is
    stored nor the final score of the scan. *)
Theorem commit_order_is_irrelevant w db (file : option (ScoringConfig N)) (id : Z) :
  unique_metrics (scan_metadata db) ->
  (forall id' key source,
     stored_value (scan_metadata (Ingestor.collect_both w db id)) id' key source =
     stored_value (scan_metadata (Ingestor.collect_both (other_order w) db id))
       id' key source) ∧
  Ingestor.calculate_final_score (Some (Ingestor.collect_both w db id)) file id =
  Ingestor.calculate_final_score (Some (Ingestor.collect_both (other_order w) db id)) file id.
Proof.
  intros Hu.
  destruct (collect_both_effect w db id Hu) as (Hu1 & _ & _ & Hv1).
  destruct (collect_both_effect (other_order w) db id Hu) as (Hu2 & _ & _ & Hv2).
  assert (forall id' key source,
     stored_value (scan_metadata (Ingestor.collect_both w db id)) id' key source =
     stored_value (scan_metadata (Ingestor.collect_both (other_order w) db id))
       id' key source) as Hsame.
  { intros id' key source. by rewrite Hv1, Hv2. }
  split; [exact Hsame|]. by apply calculate_final_score_stored.
Qed.

End Turn.

(** ** From a turn of the workflow to the read endpoint *)

Section EndToEnd.
Context {N : Type} `{PyNumLaws N}.
Implicit Types (db : Database N) (w : Ingestor.Outside) (r : ScanRecord N).

(** The collectors touch neither the scans nor the per-metric scores. *)
Lemma store_all_frame (name_key value_key source : string)
    (measures : list Ingestor.Measure) (seq : Z) db db' (id : Z) :
  Ingestor.store_all name_key value_key source seq db id measures = Ok db' ->
  project_scans db' = project_scans db ∧ metadata_scores db' = metadata_scores db.
Proof.
  revert seq db. induction measures as [|m measures IH]; intros seq db; simpl.
  - by intros [= ->].
  - destruct (Ingestor.m_name m) as [name|]; simpl; [|done].
    destruct (Ingestor.m_value m) as [value|]; simpl; [|done].
    intros Hok. by destruct (IH _ _ Hok) as [-> ->].
Qed.

Lemma collect_both_frame w db (id : Z) :
  project_scans (Ingestor.collect_both w db id) = project_scans db ∧
  metadata_scores (Ingestor.collect_both w db id) = metadata_scores db.
Proof.
  assert (forall db0 : Database N,
    project_scans
      (Ingestor.submit
         (fun db => Ingestor.collect_sonarqube_metrics (Ingestor.sonarqube_token w)
                      (Ingestor.db_up_sonarqube w) (Ingestor.sonarqube_reply w)
                      (Ingestor.sonarqube_seq w) db id) db0) = project_scans db0 ∧
    metadata_scores
      (Ingestor.submit
         (fun db => Ingestor.collect_sonarqube_metrics (Ingestor.sonarqube_token w)
                      (Ingestor.db_up_sonarqube w) (Ingestor.sonarqube_reply w)
                      (Ingestor.sonarqube_seq w) db id) db0) = metadata_scores db0) as Hsq.
  { intros db0. unfold Ingestor.submit, Ingestor.collect_sonarqube_metrics,
      Ingestor.get_db_connection, connect.
    case_bool_decide; [done|]. destruct (Ingestor.db_up_sonarqube w); [|done].
    destruct (Ingestor.sonarqube_reply w) as [measures|]; [|done].
    destruct (Ingestor.store_all _ _ _ _ _ _ _) as [db1|] eqn:E; [|done].
    by apply store_all_frame in E. }
  assert (forall db0 : Database N,
    project_scans
      (Ingestor.submit
         (fun db => Ingestor.collect_openssf_metrics (Ingestor.scorecard_token w)
                      (Ingestor.db_up_openssf w) (Ingestor.scorecard_run w)
                      (Ingestor.openssf_seq w) db id) db0) = project_scans db0 ∧
    metadata_scores
      (Ingestor.submit
         (fun db => Ingestor.collect_openssf_metrics (Ingestor.scorecard_token w)
                      (Ingestor.db_up_openssf w) (Ingestor.scorecard_run w)
                      (Ingestor.openssf_seq w) db id) db0) = metadata_scores db0) as Hos.
  { intros db0. unfold Ingestor.submit, Ingestor.collect_openssf_metrics,
      Ingestor.get_db_connection, connect.
    case_bool_decide; [done|]. destruct (Ingestor.db_up_openssf w); [|done].
    destruct (Ingestor.scorecard_run w) as [| | |overall checks]; try done.
    destruct (Ingestor.store_all _ _ _ _ _ _ _) as [db1|] eqn:E; [|done].
    by apply store_all_frame in E. }
  unfold Ingestor.collect_both. destruct (Ingestor.sonarqube_first w).
  - destruct (Hos (Ingestor.submit
         (fun db => Ingestor.collect_sonarqube_metrics (Ingestor.sonarqube_token w)
                      (Ingestor.db_up_sonarqube w) (Ingestor.sonarqube_reply w)
                      (Ingestor.sonarqube_seq w) db id) db)) as [-> ->]. apply Hsq.
  - destruct (Hsq (Ingestor.submit
         (fun db => Ingestor.collect_openssf_metrics (Ingestor.scorecard_token w)
                      (Ingestor.db_up_openssf w) (Ingestor.scorecard_run w)
                      (Ingestor.openssf_seq w) db id) db)) as [-> ->]. apply Hos.
Qed.

(** Writing the score of a scan whose identifier no earlier row has. *)
Lemma update_final_score_last (conn : Database N) (rows : list (ScanRecord N)) r (s : N) :
  project_scans conn = rows ++ [r] ->
  (forall r', r' ∈ rows -> scan_id r' ≠ scan_id r) ->
  project_scans (Ingestor.update_final_score conn (scan_id r) s) =
  rows ++ [{| scan_id := scan_id r; project_name := project_name r;
              scan_date := scan_date r; final_score := Some s |}].
Proof.
  intros Hrows Hfresh. unfold Ingestor.update_final_score. simpl. rewrite Hrows.
  rewrite map_app. simpl. rewrite Z.eqb_refl. f_equal.
  clear Hrows. induction rows as [|r0 rows IH]; [done|]. simpl.
  assert ((scan_id r0 =? scan_id r) = false) as ->.
  { apply Z.eqb_neq. apply Hfresh. left. }
  f_equal. apply IH. intros r' Hr'. apply Hfresh. by right.
Qed.

(** A scored row of the project, newer than every other of the project, is
    the one selected when it comes last. *)
Lemma select_latest_scan_last (conn : Database N) (rows : list (ScanRecord N)) r
    (project : string) :
  project_scans conn = rows ++ [r] ->
  project_name r = project ->
  final_score r ≠ None ->
  (forall r', r' ∈ rows -> project_name r' = project -> scan_date r' < scan_date r) ->
  Api.select_latest_scan conn project = Some r.
Proof.
  intros Hrows Hp Hf Hnew. rewrite select_latest_scan_rows, Hrows.
  unfold Api.select_latest_scan. simpl. rewrite fold_left_app. simpl.
  assert (Api.scored_for project r = true) as -> by by apply scored_for_spec.
  pose proof (select_latest_scan_Some
                {| project_scans := rows; scan_metadata := []; metadata_scores := [] |}
                project) as Hsel.
  unfold Api.select_latest_scan in Hsel. simpl in Hsel.
  destruct (fold_left _ rows None) as [b|]; [|done].
  destruct (Hsel b eq_refl) as (Hin & Hpb & _ & _).
  specialize (Hnew b Hin Hpb).
  by assert ((scan_date b <? scan_date r) = true) as -> by by apply Z.ltb_lt.
Qed.

(** X9: from ingestion to the read endpoint. When the database answers,
    the new scan identifier is not zero and not in use, the clock is past
    every scan of the project, and scoring the collected metrics gives [s],
    the turn ends without an exception and the read endpoint then serves,
    for the project named after the last segment of the repository URL,
    this new scan with the final score [s]. *)
Theorem fresh_scan_is_served w (file : option (ScoringConfig N)) db (repo_url : string)
    (s : N) :
  let project := Ingestor.project_name_of repo_url in
  let id := Ingestor.next_scan_id w in
  Ingestor.db_up_create w = true ->
  Ingestor.db_up_read w = true ->
  Ingestor.db_up_write w = true ->
  id ≠ 0 ->
  (forall r, r ∈ project_scans db -> scan_id r ≠ id) ->
  (forall r, r ∈ project_scans db -> project_name r = project ->
             scan_date r < Ingestor.now w) ->
  Ingestor.calculate_final_score
    (Some (Ingestor.collect_both w
             (Ingestor.create_scan_record id (Ingestor.now w) db project).1 id))
    file id = Ok s ->
  exists db',
    Ingestor.process_repository w file db repo_url = Ok db' ∧
    Api.select_latest_scan db' project =
      Some {| scan_id := id; project_name := project;
              scan_date := Ingestor.now w; final_score := Some s |} ∧
    forall api_file v,
      Api.get_latest_scan true db' api_file project = Ok v ->
      Api.sv_scan_id v = id ∧ Api.sv_scan_date v = Ingestor.now w ∧
      Api.sv_final_score v = Some s.
Proof.
  intros project id Hc Hr Hw Hid Hfresh Hnew Hscore.
  unfold Ingestor.process_repository. fold project. rewrite Hc, Hr, Hw. fold id.
  change (Ingestor.get_db_connection true db) with (Some db).
  cbn [Ingestor.create_scan_record].
  assert ((id =? 0) = false) as -> by by apply Z.eqb_neq.
  unfold Ingestor.score_scan.
  change (Ingestor.get_db_connection true ?d) with (Some d).
  cbn [Ingestor.create_scan_record fst] in Hscore. rewrite Hscore. simpl.
  eexists. split; [done|].
  set (db1 := {| project_scans := project_scans db ++
                   [{| scan_id := id; project_name := project;
                       scan_date := Ingestor.now w; final_score := None |}];
                 scan_metadata := scan_metadata db;
                 metadata_scores := metadata_scores db |}).
  set (new := {| scan_id := id; project_name := project;
                 scan_date := Ingestor.now w; final_score := @None N |}).
  assert (project_scans (Ingestor.collect_both w db1 id) = project_scans db ++ [new]) as Hrows
    by apply collect_both_frame.
  pose proof (update_final_score_last (Ingestor.collect_both w db1 id)
                (project_scans db) new s Hrows Hfresh) as Hupd.
  assert (Api.select_latest_scan
            (Ingestor.update_final_score (Ingestor.collect_both w db1 id) id s) project =
          Some {| scan_id := id; project_name := project;
                  scan_date := Ingestor.now w; final_score := Some s |}) as Hsel.
  { eapply select_latest_scan_last; [exact Hupd|done|done|]. exact Hnew. }
  split; [exact Hsel|].
  intros api_file v (r & Hsel' & Hi & _ & Hd & Hf & _)%get_latest_scan_Ok.
  rewrite Hsel in Hsel'. injection Hsel' as <-. done.
Qed.

(** No part of a turn writes the table of per-metric scores. *)
Lemma process_repository_scores w (file : option (ScoringConfig N)) db db'
    (repo_url : string) :
  Ingestor.process_repository w file db repo_url = Ok db' ->
  metadata_scores db' = metadata_scores db.
Proof.
  unfold Ingestor.process_repository, Ingestor.get_db_connection, connect.
  destruct (Ingestor.db_up_create w); [|by intros [= ->]].
  cbn [Ingestor.create_scan_record].
  destruct (_ =? 0); [by intros [= <-]|].
  unfold Ingestor.score_scan.
  destruct (Ingestor.calculate_final_score _ _ _) as [s|]; simpl; [|done].
  destruct (Ingestor.db_up_write w); simpl; intros [= <-]; simpl;
    by destruct (collect_both_frame w
      {| project_scans := project_scans db ++
           [{| scan_id := Ingestor.next_scan_id w;
               project_name := Ingestor.project_name_of repo_url;
               scan_date := Ingestor.now w; final_score := None |}];
         scan_metadata := scan_metadata db;
         metadata_scores := metadata_scores db |} (Ingestor.next_scan_id w)) as [_ ->].
Qed.
End EndToEnd.

(** ** The metadata section of the response *)

Section Metadata.
Context {N : Type} `{PyNum N}.
Implicit Types (db : Database N) (e : @Api.MetadataEntry N).
Implicit Types (l : list (@Api.MetadataEntry N)).
Implicit Types (rows : list (string * @Api.MetadataEntry N)).

Lemma insert_by_key_perm e l : Api.insert_by_key e l ≡ₚ e :: l.
Proof.
  induction l as [|e' l IH]; simpl; [done|].
  destruct (String.leb _ _); [done|]. rewrite IH. apply perm_swap.
Qed.

Lemma insert_by_key_sorted e l : key_sorted l -> key_sorted (Api.insert_by_key e l).
Proof.
  unfold key_sorted. induction l as [|e' l IH]; simpl; intros Hs.
  - by repeat constructor.
  - destruct (String.leb (Api.me_metric_key e) (Api.me_metric_key e')) eqn:E.
    + constructor; [exact Hs|]. constructor. exact E.
    + assert (String.leb (Api.me_metric_key e') (Api.me_metric_key e) = true) as E'.
      { destruct (String.leb_total (Api.me_metric_key e) (Api.me_metric_key e'));
          [congruence|done]. }
      apply Sorted_inv in Hs as [Hs Hhd]. constructor; [by apply IH|].
      destruct l as [|e'' l]; simpl.
      * by constructor.
      * destruct (String.leb (Api.me_metric_key e) (Api.me_metric_key e'')).
        -- by constructor.
        -- constructor. by apply HdRel_inv in Hhd.
Qed.

Lemma sorted_by_key_perm l : Api.sorted_by_key l ≡ₚ l.
Proof.
  unfold Api.sorted_by_key. induction l as [|e l IH]; simpl; [done|].
  by rewrite insert_by_key_perm, IH.
Qed.

Lemma sorted_by_key_sorted l : key_sorted (Api.sorted_by_key l).
Proof.
  unfold Api.sorted_by_key. induction l as [|e l IH]; simpl.
  - constructor.
  - by apply insert_by_key_sorted.
Qed.

(** The groups after the fold: the rows of each source, in their order,
    after what the dictionary held. *)
Lemma group_fold rows (g : gmap string (list (@Api.MetadataEntry N))) (source : string) :
  fold_left
    (fun grouped row => <[row.1 := default [] (grouped !! row.1) ++ [row.2]]> grouped)
    rows g !! source =
  match filter (fun row => row.1 = source) rows with
  | [] => g !! source
  | found => Some (default [] (g !! source) ++ (snd <$> found))
  end.
Proof.
  revert g. induction rows as [|[s e] rows IH]; intros g; simpl; [done|].
  rewrite IH. destruct (decide (s = source)) as [->|Hne].
  - rewrite filter_cons_True by done. rewrite lookup_insert_eq. simpl.
    destruct (filter _ rows) as [|row found]; simpl.
    + done.
    + by rewrite <- app_assoc.
  - rewrite filter_cons_False by done. by rewrite lookup_insert_ne.
Qed.

Lemma group_by_source_lookup rows (source : string) l :
  Api.group_by_source rows !! source = Some l <->
  l ≠ [] ∧ l = snd <$> filter (fun row => row.1 = source) rows.
Proof.
  unfold Api.group_by_source. rewrite group_fold, lookup_empty. simpl.
  destruct (filter _ rows) as [|row found]; simpl.
  - split; [done|]. by intros [? ->].
  - split; [by intros [= <-]|]. by intros [_ ->].
Qed.

Lemma join_entries {B : Type} (f : option N -> B) (found : list (ScoreRecord N)) (x : B) :
  x ∈ match found with
      | [] => [f None]
      | ms0 :: rest => map (fun ms => f (score ms)) (ms0 :: rest)
      end <->
  (found = [] ∧ x = f None) ∨ exists ms, ms ∈ found ∧ x = f (score ms).
Proof.
  destruct found as [|ms0 found].
  - rewrite list_elem_of_singleton. split.
    + intros ->. by left.
    + intros [[_ ->]|(ms & Hms & _)]; [done|]. by apply not_elem_of_nil in Hms.
  - change (map ?g ?l) with (g <$> l). rewrite list_elem_of_fmap. split.
    + intros (ms & -> & Hms). right. by exists ms.
    + intros [[? _]|(ms & Hms & ->)]; [done|]. by exists ms.
Qed.

(** The rows of the join: every row of the scan, once without a score when
    [metadata_scores] has none for it, once per score otherwise. *)
Lemma select_metadata_elem db (id : Z) (source : string) e :
  (source, e) ∈ Api.select_metadata db id <->
  exists sm, sm ∈ scan_metadata db ∧ mr_scan_id sm = id ∧ metric_source sm = source ∧
    Api.me_metric_key e = metric_key sm ∧ Api.me_metric_value e = metric_value sm ∧
    ((forall ms, ms ∈ metadata_scores db -> ms_metadata_id ms ≠ metadata_id sm) ∧
     Api.me_score e = None ∨
     exists ms, ms ∈ metadata_scores db ∧ ms_metadata_id ms = metadata_id sm ∧
                Api.me_score e = score ms).
Proof.
  unfold Api.select_metadata. rewrite list_elem_of_In, in_flat_map. split.
  - intros (sm & [Hid Hsm]%list_elem_of_In%list_elem_of_filter & Hin).
    exists sm. split; [done|]. split; [done|].
    apply list_elem_of_In in Hin. cbv zeta in Hin.
    apply (join_entries (B := string * Api.MetadataEntry)
             (fun s => (metric_source sm,
                        {| Api.me_metric_key := metric_key sm;
                           Api.me_metric_value := metric_value sm;
                           Api.me_score := s |}))) in Hin
      as [[Hnil [= -> ->]]|(ms & [Heq Hms]%list_elem_of_filter & [= -> ->])].
    + repeat split; try done. left. split; [|done].
      intros ms Hms Heq. by eapply (filter_nil_not_elem_of _ _ ms).
    + repeat split; try done. right. by exists ms.
  - intros (sm & Hsm & Hid & Hsrc & Hk & Hv & Hscore).
    exists sm. split; [by apply list_elem_of_In, list_elem_of_filter|].
    apply list_elem_of_In. cbv zeta.
    apply (join_entries (B := string * Api.MetadataEntry)
             (fun s => (metric_source sm,
                        {| Api.me_metric_key := metric_key sm;
                           Api.me_metric_value := metric_value sm;
                           Api.me_score := s |}))).
    destruct e as [k val sc]. simpl in *. subst k val source.
    destruct Hscore as [[Hnone ->]|(ms & Hms & Heq & ->)].
    + left. split; [|done]. by apply filter_none.
    + right. exists ms. split; [|done]. by apply list_elem_of_filter.
Qed.

(** The metadata of a 200 response. *)
Lemma get_latest_scan_metadata (reachable : bool) db (file : option (ScoringConfig N))
    (project : string) (v : Api.ScanView) :
  Api.get_latest_scan reachable db file project = Ok v ->
  Api.sv_metadata v =
  Api.sorted_by_key <$> Api.group_by_source (Api.select_metadata db (Api.sv_scan_id v)).
Proof.
  unfold Api.get_latest_scan, Api.get_db_connection, connect.
  remember (@Api.calculate_max_score N _) as cms eqn:Hcms.
  destruct reachable; simpl; [|done].
  destruct (Api.select_latest_scan db project) as [r|]; [|done].
  destruct file as [config|]; simpl.
  - destruct (Api.truthy config).
    + destruct (cms (Some config)) as [m|]; simpl; [|done]. by intros [= <-].
    + by intros [= <-].
  - by intros [= <-].
Qed.

(** X10: in a 200 response, the entries of every source are in ascending
    order of [metric_key], and no source is listed with an empty list. *)
Theorem metadata_is_sorted (reachable : bool) db (file : option (ScoringConfig N))
    (project source : string) (v : Api.ScanView) l :
  Api.get_latest_scan reachable db file project = Ok v ->
  Api.sv_metadata v !! source = Some l ->
  key_sorted l ∧ l ≠ [].
Proof.
  intros Hv%get_latest_scan_metadata Hl. rewrite Hv, lookup_fmap in Hl.
  destruct (Api.group_by_source _ !! source) as [l0|] eqn:E; [|done].
  injection Hl as <-. split; [apply sorted_by_key_sorted|].
  apply group_by_source_lookup in E as [Hne _].
  intros Hnil. apply Hne. apply Permutation_nil_r. rewrite <- Hnil.
  symmetry. apply sorted_by_key_perm.
Qed.

(** X11: a 200 response lists, under each source, the metrics of the scan
    served and only them: every entry is a stored row of that scan and
    source with its key and value, and every stored row of the scan has an
    entry under its source. *)
Theorem metadata_is_complete (reachable : bool) db (file : option (ScoringConfig N))
    (project : string) (v : Api.ScanView) :
  Api.get_latest_scan reachable db file project = Ok v ->
  (forall source l e,
     Api.sv_metadata v !! source = Some l -> e ∈ l ->
     exists sm, sm ∈ scan_metadata db ∧ mr_scan_id sm = Api.sv_scan_id v ∧
       metric_source sm = source ∧ metric_key sm = Api.me_metric_key e ∧
       metric_value sm = Api.me_metric_value e) ∧
  (forall sm, sm ∈ scan_metadata db -> mr_scan_id sm = Api.sv_scan_id v ->
     exists l e, Api.sv_metadata v !! metric_source sm = Some l ∧ e ∈ l ∧
       Api.me_metric_key e = metric_key sm ∧ Api.me_metric_value e = metric_value sm).
Proof.
  intros Hv%get_latest_scan_metadata. rewrite Hv. split.
  - intros source l e Hl He. rewrite lookup_fmap in Hl.
    destruct (Api.group_by_source _ !! source) as [l0|] eqn:E; [|done].
    injection Hl as <-. rewrite sorted_by_key_perm in He.
    apply group_by_source_lookup in E as [_ ->].
    apply list_elem_of_fmap in He as ([s e'] & -> & [Hs Hin]%list_elem_of_filter).
    simpl in *. subst s.
    apply select_metadata_elem in Hin as (sm & ? & ? & ? & ? & ? & _).
    by exists sm.
  - intros sm Hsm Hid.
    assert (exists e, (metric_source sm, e) ∈ Api.select_metadata db (Api.sv_scan_id v) ∧
                      Api.me_metric_key e = metric_key sm ∧
                      Api.me_metric_value e = metric_value sm) as (e & Hin & Hk & Hval).
    { destruct (filter (fun ms => ms_metadata_id ms = metadata_id sm) (metadata_scores db))
        as [|ms found] eqn:E.
      - exists {| Api.me_metric_key := metric_key sm; Api.me_metric_value := metric_value sm;
                  Api.me_score := None |}.
        split; [|done]. apply select_metadata_elem. exists sm. repeat split; try done.
        left. split; [|done]. intros ms Hms Heq. by eapply (filter_nil_not_elem_of _ _ ms).
      - exists {| Api.me_metric_key := metric_key sm; Api.me_metric_value := metric_value sm;
                  Api.me_score := score ms |}.
        split; [|done]. apply select_metadata_elem. exists sm. repeat split; try done.
        right. exists ms.
        assert (ms ∈ filter (fun ms => ms_metadata_id ms = metadata_id sm) (metadata_scores db))
          as [? ?]%list_elem_of_filter by (rewrite E; left).
        done. }
    exists (Api.sorted_by_key
              (snd <$> filter (fun row => row.1 = metric_source sm)
                              (Api.select_metadata db (Api.sv_scan_id v)))), e.
    assert (e ∈ snd <$> filter (fun row => row.1 = metric_source sm)
                               (Api.select_metadata db (Api.sv_scan_id v))) as He.
    { apply list_elem_of_fmap. exists (metric_source sm, e). split; [done|].
      by apply list_elem_of_filter. }
    split; [|split; [by rewrite sorted_by_key_perm|done]].
    rewrite lookup_fmap.
    assert (Api.group_by_source (Api.select_metadata db (Api.sv_scan_id v))
              !! metric_source sm =
            Some (snd <$> filter (fun row => row.1 = metric_source sm)
                                 (Api.select_metadata db (Api.sv_scan_id v)))) as ->; [|done].
    apply group_by_source_lookup. split; [|done].
    intros Hnil. rewrite Hnil in He. by apply not_elem_of_nil in He.
Qed.

(** X12: nothing in the ingestion writes [metadata_scores]: a turn of the
    workflow leaves that table as it was, and when it is empty every
    entry of every response served afterwards has no score. *)
Theorem ingestion_leaves_scores_null `{!PyNumLaws N} (w : Ingestor.Outside)
    (file : option (ScoringConfig N)) db db' (repo_url : string) :
  Ingestor.process_repository w file db repo_url = Ok db' ->
  metadata_scores db' = metadata_scores db ∧
  (metadata_scores db = [] ->
   forall (reachable : bool) (api_file : option (ScoringConfig N))
          (project source : string) (v : Api.ScanView) l e,
     Api.get_latest_scan reachable db' api_file project = Ok v ->
     Api.sv_metadata v !! source = Some l -> e ∈ l -> Api.me_score e = None).
Proof.
  intros Hturn.
  pose proof (process_repository_scores w file db db' repo_url Hturn) as Hsame.
  split; [exact Hsame|]. intros Hempty.
  assert (metadata_scores db' = []) as Hempty' by by rewrite Hsame.
  intros reachable api_file project source v l e.
  intros Hv%get_latest_scan_metadata Hl He. rewrite Hv, lookup_fmap in Hl.
  destruct (Api.group_by_source _ !! source) as [l0|] eqn:E; [|done].
  injection Hl as <-. rewrite sorted_by_key_perm in He.
  apply group_by_source_lookup in E as [_ ->].
  apply list_elem_of_fmap in He as ([s e'] & -> & [Hs Hin]%list_elem_of_filter).
  apply select_metadata_elem in Hin as (sm & _ & _ & _ & _ & _ & [[_ Hnone]|(ms & Hms & _)]).
  - done.
  - rewrite Hempty' in Hms. by apply not_elem_of_nil in Hms.
Qed.
End Metadata.

(** ** Keys that a definition lacks *)

Section MissingKeys.
Context {N : Type} `{PyNumLaws N}.
Implicit Types (d : MetricDefinition N) (defs : list (MetricDefinition N)).

Lemma add_metric_max_nameless d (acc : N) :
  is_Some (type_maximum d) -> md_name d = None ->
  exists e, Api.add_metric_max acc d = Raise e.
Proof.
  unfold type_maximum, Api.add_metric_max. intros Hmax Hname. rewrite Hname.
  destruct (md_type d) as [t|]; [|by destruct Hmax].
  destruct (decide (t = "direct")) as [->|H1]; simpl in *.
  { repeat case_bind; by eexists. }
  destruct (decide (t = "direct_scaled")) as [->|H2]; simpl in *.
  { repeat case_bind; by eexists. }
  destruct (decide (t = "inverted_scaled")) as [->|H3]; simpl in *.
  { repeat case_bind; by eexists. }
  destruct (decide (t = "inverted_percentage")) as [->|H4]; simpl in *.
  { repeat case_bind; by eexists. }
  apply String.eqb_neq in H1, H2, H3, H4. rewrite H1, H2, H3, H4 in Hmax.
  by destruct Hmax.
Qed.

Lemma max_loop_nameless defs d (acc : N) :
  d ∈ defs -> is_Some (type_maximum d) -> md_name d = None ->
  exists e, Api.max_loop defs acc = Raise e.
Proof.
  intros Hin Hmax Hname. revert acc.
  induction defs as [|d0 defs IH]; intros acc; [by apply not_elem_of_nil in Hin|].
  simpl. destruct (Api.add_metric_max acc d0) as [acc'|e] eqn:E; simpl; [|by eexists].
  apply elem_of_cons in Hin as [<-|Hin]; [|by apply IH].
  destruct (add_metric_max_nameless d acc Hmax Hname) as [e He]. congruence.
Qed.

(** X13: a definition of one of the four types that has no [name] key makes
    [calculate_max_score] raise, wherever it stands in the configuration,
    and with it the read endpoint for every project that has a scored scan:
    the answer is then neither 200 nor 404. *)
Theorem nameless_metric_breaks_read (config : ScoringConfig N) defs d :
  metrics config = Some defs ->
  d ∈ defs -> is_Some (type_maximum d) -> md_name d = None ->
  (exists e, Api.calculate_max_score (Some config) = Raise e ∧
             (e = OverflowError ∨ e = KeyError "name")) ∧
  (forall (db : Database N) project r,
     Api.select_latest_scan db project = Some r ->
     exists e, Api.get_latest_scan true db (Some config) project = Raise e ∧
               (e = OverflowError ∨ e = KeyError "name")).
Proof.
  intros Hm Hin Hmax Hname.
  assert (Api.truthy config = true) as Htruthy.
  { unfold Api.truthy. rewrite Hm. rewrite (bool_decide_eq_true_2 (Some defs ≠ None)) by done.
    by rewrite !orb_true_r. }
  assert (exists e, Api.calculate_max_score (Some config) = Raise e ∧
                    (e = OverflowError ∨ e = KeyError "name")) as (e & He & Hkind).
  { unfold Api.calculate_max_score. rewrite Htruthy, Hm. simpl.
    destruct (max_loop_nameless defs d (of_int 0) Hin Hmax Hname) as [e He].
    exists e. split; [done|]. by eapply max_loop_raises. }
  split; [by exists e|].
  intros db project r Hsel. exists e. split; [|done].
  unfold Api.get_latest_scan.
  change (Api.get_db_connection true db) with (Ok db).
  cbn [mbind result_bind]. rewrite Hsel.
  change (Api.load_scoring_config (Some config)) with (Ok (Some config)).
  cbn [mbind result_bind]. rewrite Htruthy, He. done.
Qed.

Lemma score_loop_app (m : gmap string (gmap string N)) defs1 defs2 (totals : N * N) :
  Ingestor.score_loop m (defs1 ++ defs2) totals =
  (totals' ← Ingestor.score_loop m defs1 totals; Ingestor.score_loop m defs2 totals').
Proof.
  revert totals. induction defs1 as [|d defs1 IH]; intros totals; simpl; [done|].
  destruct (Ingestor.score_metric m totals d); simpl; [apply IH|done].
Qed.

(** X14: a definition without a [weight] key stops the scoring of every scan
    that has stored records with [KeyError], whether or not the scan has the
    metric, once the definitions before it are scored; the maximum is
    computed for the same definition with the weight 1.0. *)
Theorem weightless_metric_breaks_scoring (db : Database N) (config : ScoringConfig N)
    (id : Z) defs1 defs2 d (source key : string) (totals : N * N) (acc : N) :
  Ingestor.select_records db id ≠ [] ->
  metrics config = Some (defs1 ++ d :: defs2) ->
  Ingestor.score_loop (Ingestor.build_metrics_by_source (Ingestor.select_records db id))
    defs1 (of_int 0, of_int 0) = Ok totals ->
  md_source d = Some source -> md_key d = Some key -> md_weight d = None ->
  Ingestor.calculate_final_score (Some db) (Some config) id = Raise (KeyError "weight") ∧
  Api.add_metric_max acc d =
  Api.add_metric_max acc
    {| md_name := md_name d; md_source := md_source d; md_key := md_key d;
       md_weight := Some (of_float_lit 1); md_type := md_type d;
       md_scale_factor := md_scale_factor d; md_max_score := md_max_score d;
       md_base_max_value := md_base_max_value d |}.
Proof.
  intros Hne Hm Hprefix Hs Hk Hw. split.
  - unfold Ingestor.calculate_final_score.
    destruct (Ingestor.select_records db id) as [|rec records] eqn:E; [done|].
    simpl. rewrite Hm. simpl. rewrite score_loop_app, Hprefix. simpl.
    unfold Ingestor.score_metric. by rewrite Hs, Hk, Hw.
  - unfold Api.add_metric_max. simpl. by rewrite Hw.
Qed.
End MissingKeys.

(** ** The repositories file and the project names *)

Section Repositories.
Implicit Types (s acc : list ascii) (c : ascii).

Lemma last_segment_fold s acc (pre : list ascii) :
  "/"%char ∉ acc ->
  (pre = [] ∨ exists p, pre = p ++ ["/"%char]) ->
  exists pre',
    pre ++ acc ++ s =
      (pre' ++ fold_left (fun acc c => if Ascii.eqb c "/" then [] else acc ++ [c]) s acc) ∧
    ("/"%char ∉ fold_left (fun acc c => if Ascii.eqb c "/" then [] else acc ++ [c]) s acc) ∧
    (pre' = [] ∨ exists p, pre' = p ++ ["/"%char]).
Proof.
  revert acc pre. induction s as [|c s IH]; intros acc pre Hacc Hpre; simpl.
  - exists pre. by rewrite app_nil_r.
  - destruct (Ascii.eqb_spec c "/") as [->|Hc].
    + destruct (IH [] (pre ++ acc ++ ["/"%char])) as (pre' & Heq & Hno & Hshape).
      * apply not_elem_of_nil.
      * right. exists (pre ++ acc). by rewrite <- app_assoc.
      * exists pre'. split; [|done]. rewrite <- Heq. simpl. by rewrite <- !app_assoc.
    + destruct (IH (acc ++ [c]) pre) as (pre' & Heq & Hno & Hshape).
      * rewrite not_elem_of_app, list_elem_of_singleton. split; [done|congruence].
      * done.
      * exists pre'. split; [|done]. rewrite <- Heq. by rewrite <- !app_assoc.
Qed.

(** X16: the project name is the part of the repository URL after its last
    slash: the URL is a prefix, empty or ending with a slash, followed by
    the name, and the name has no slash. A URL without a slash is its own
    project name, and a URL that ends with a slash has the empty project
    name. *)
Theorem project_name_is_last_segment (repo_url : string) :
  (exists prefix,
     list_ascii_of_string repo_url =
       (prefix ++ list_ascii_of_string (Ingestor.project_name_of repo_url)) ∧
     ("/"%char ∉ list_ascii_of_string (Ingestor.project_name_of repo_url)) ∧
     (prefix = [] ∨ exists p, prefix = p ++ ["/"%char])) ∧
  ("/"%char ∉ list_ascii_of_string repo_url -> Ingestor.project_name_of repo_url = repo_url) ∧
  Ingestor.project_name_of (String.append repo_url "/") = "".
Proof.
  unfold Ingestor.project_name_of. split; [|split].
  - destruct (last_segment_fold (list_ascii_of_string repo_url) [] [])
      as (pre & Heq & Hno & Hshape); [apply not_elem_of_nil|by left|].
    exists pre. by rewrite list_ascii_of_string_of_list_ascii.
  - intros Hno.
    assert (forall s acc, "/"%char ∉ s ->
              fold_left (fun acc c => if Ascii.eqb c "/" then [] else acc ++ [c]) s acc
              = (acc ++ s)) as Hfold.
    { induction s as [|c s IH]; intros acc Hs; simpl; [by rewrite app_nil_r|].
      apply not_elem_of_cons in Hs as [Hc Hs].
      destruct (Ascii.eqb_spec c "/") as [->|_]; [done|].
      rewrite IH by done. by rewrite <- app_assoc. }
    rewrite Hfold by done. simpl. apply string_of_list_ascii_of_string.
  - assert (list_ascii_of_string (String.append repo_url "/") =
            list_ascii_of_string repo_url ++ ["/"%char]) as ->.
    { induction repo_url as [|c s IH]; simpl; [done|]. by rewrite IH. }
    by rewrite fold_left_app.
Qed.

Lemma py_lstrip_spaces s :
  Forall (fun c => Ingestor.is_py_space c = true) s -> Ingestor.py_lstrip s = [].
Proof.
  induction 1 as [|c s Hc _ IH]; simpl; [done|]. by rewrite Hc.
Qed.
End Repositories.

(** ** The run over the repositories file *)

Section Run.
Context {N : Type} `{PyNumLaws N}.
Implicit Types (db : Database N) (w : Ingestor.Outside) (world : nat -> Ingestor.Outside).
Implicit Types (file : option (ScoringConfig N)) (repositories lines : list string).

Local Abbreviation identity := (fun r : ScanRecord N => (scan_id r, project_name r, scan_date r)).

Lemma update_final_score_identity db (id : Z) (s : N) :
  identity <$> project_scans (Ingestor.update_final_score db id s)
  = identity <$> project_scans db.
Proof.
  unfold Ingestor.update_final_score. simpl.
  induction (project_scans db) as [|r rows IH]; [done|].
  cbn [map fmap list_fmap] in *. f_equal; [|exact IH]. by destruct (scan_id r =? id).
Qed.

(** A turn appends one scan when the database answers, and none
    otherwise; the scans already there keep their identifier, project and
    date. *)
Lemma process_repository_scans w file db db' (repo_url : string) :
  Ingestor.process_repository w file db repo_url = Ok db' ->
  identity <$> project_scans db' =
  (identity <$> project_scans db) ++
  (if Ingestor.db_up_create w
   then [(Ingestor.next_scan_id w, Ingestor.project_name_of repo_url, Ingestor.now w)]
   else []).
Proof.
  unfold Ingestor.process_repository, Ingestor.get_db_connection, connect.
  destruct (Ingestor.db_up_create w); [|intros [= ->]; by rewrite app_nil_r].
  cbn [Ingestor.create_scan_record].
  set (db1 := {| project_scans := _; scan_metadata := _; metadata_scores := _ |}).
  assert (identity <$> project_scans db1 =
          (identity <$> project_scans db) ++
          [(Ingestor.next_scan_id w, Ingestor.project_name_of repo_url, Ingestor.now w)])
    as Hdb1 by (unfold db1; simpl; by rewrite fmap_app).
  destruct (_ =? 0); [by intros [= <-]|].
  unfold Ingestor.score_scan.
  destruct (Ingestor.calculate_final_score _ _ _) as [s|]; simpl; [|done].
  destruct (collect_both_frame w db1 (Ingestor.next_scan_id w)) as [Hrows _].
  destruct (Ingestor.db_up_write w); simpl; intros [= <-].
  - by rewrite update_final_score_identity, Hrows.
  - by rewrite Hrows.
Qed.

Lemma process_all_app world file (i : nat) db l1 l2 :
  Ingestor.process_all world file i db (l1 ++ l2) =
  (db1 ← Ingestor.process_all world file i db l1;
   Ingestor.process_all world file (i + length l1) db1 l2).
Proof.
  revert i db. induction l1 as [|url l1 IH]; intros i db; simpl.
  - by rewrite Nat.add_0_r.
  - destruct (Ingestor.process_repository (world i) file db url) as [db1|e]; simpl; [|done].
    rewrite IH. by rewrite Nat.add_succ_r.
Qed.

Lemma process_all_scans world file (i : nat) db db' repositories :
  (forall j, Ingestor.db_up_create (world j) = true) ->
  Ingestor.process_all world file i db repositories = Ok db' ->
  identity <$> project_scans db' =
  (identity <$> project_scans db) ++
  imap (fun j repo_url =>
          (Ingestor.next_scan_id (world (i + j)%nat), Ingestor.project_name_of repo_url,
           Ingestor.now (world (i + j)%nat))) repositories.
Proof.
  intros Hup. revert i db. induction repositories as [|url rest IH]; intros i db; simpl.
  - intros [= ->]. by rewrite app_nil_r.
  - destruct (Ingestor.process_repository (world i) file db url) as [db1|e] eqn:E;
      simpl; [|done].
    intros Hrest. apply IH in Hrest. rewrite Hrest.
    rewrite (process_repository_scans _ _ _ _ _ E), Hup, <- app_assoc. simpl.
    rewrite Nat.add_0_r. do 2 f_equal. apply imap_ext. intros j url' _. simpl.
    by rewrite Nat.add_succ_r.
Qed.

Lemma process_all_down world file (i : nat) db repositories :
  (forall j, Ingestor.db_up_create (world j) = false) ->
  Ingestor.process_all world file i db repositories = Ok db.
Proof.
  intros Hdown. revert i. induction repositories as [|url rest IH]; intros i; simpl; [done|].
  unfold Ingestor.process_repository, Ingestor.get_db_connection, connect.
  rewrite Hdown. simpl. apply IH.
Qed.

Lemma read_repositories_spaces lines :
  Forall (fun line => Forall (fun c => Ingestor.is_py_space c = true)
                             (list_ascii_of_string line)) lines ->
  Ingestor.read_repositories lines = [].
Proof.
  unfold Ingestor.read_repositories. induction 1 as [|line lines Hline _ IH]; [done|].
  rewrite fmap_cons, filter_cons_False; [exact IH|].
  intros Hne. apply Hne. unfold Ingestor.py_strip. by rewrite (py_lstrip_spaces _ Hline).
Qed.

(** X18: a run changes nothing when the repositories file is missing, when
    it holds only lines of white space (or no line), and when no
    connection for creating a scan succeeds: in each case it ends without
    an exception and with the database it started from. *)
Theorem run_without_effect world file db lines :
  Ingestor.run_ingestion_workflow None world file db = Ok db ∧
  (Forall (fun line => Forall (fun c => Ingestor.is_py_space c = true)
                              (list_ascii_of_string line)) lines ->
   Ingestor.run_ingestion_workflow (Some lines) world file db = Ok db) ∧
  ((forall j, Ingestor.db_up_create (world j) = false) ->
   Ingestor.run_ingestion_workflow (Some lines) world file db = Ok db).
Proof.
  split; [done|]. split.
  - intros Hspaces. unfold Ingestor.run_ingestion_workflow.
    by rewrite read_repositories_spaces.
  - intros Hdown. by apply process_all_down.
Qed.

(** X19: the turns of a list of repositories that end without an
    exception, with the database answering at the start of every turn,
    append one scan per repository, in the order of the list, named after
    the last segment of the repository, and leave the identifier, the
    project and the date of every scan that was there. *)
Theorem run_adds_one_scan_per_repository world file db db' repositories :
  (forall j, Ingestor.db_up_create (world j) = true) ->
  Ingestor.process_all world file 0 db repositories = Ok db' ->
  (fun r => (scan_id r, project_name r, scan_date r)) <$> project_scans db' =
  ((fun r => (scan_id r, project_name r, scan_date r)) <$> project_scans db) ++
  imap (fun j repo_url =>
          (Ingestor.next_scan_id (world j), Ingestor.project_name_of repo_url,
           Ingestor.now (world j))) repositories.
Proof.
  intros Hup Hrun.
  by rewrite (process_all_scans world file 0 db db' _ Hup Hrun).
Qed.

(** X20: an exception in the turn of one repository ends the loop over the
    repositories: the repositories after it are not processed and the loop
    raises the same exception. *)
Theorem run_stops_at_first_exception world file db db1 l1 l2
    (repo_url : string) (e : exn) :
  Ingestor.process_all world file 0 db l1 = Ok db1 ->
  Ingestor.process_repository (world (length l1)) file db1 repo_url = Raise e ->
  Ingestor.process_all world file 0 db (l1 ++ repo_url :: l2) = Raise e.
Proof.
  intros Hbefore Hturn.
  rewrite process_all_app, Hbefore. simpl. by rewrite Hturn.
Qed.
End Run.


(** ** The further theorems at sample inputs *)

(** A concrete list has no duplicate, by computation. *)
Ltac nodup_by_computation :=
  apply (bool_decide_unpack _); vm_compute; exact I.

Lemma store_keeps_unique_witness :
  unique_metrics (scan_metadata Sample.scenario_db) ∧
  unique_metrics
    (scan_metadata (Ingestor.store_metadata_record 9 Sample.scenario_db 1
                      "coverage" "8.0" "sonarqube")).
Proof.
  assert (unique_metrics (scan_metadata Sample.scenario_db)) as Hu
    by (unfold unique_metrics; nodup_by_computation).
  split; [exact Hu|].
  exact (proj1 (store_keeps_unique 9 Sample.scenario_db 1 "coverage" "8.0" "sonarqube" Hu)).
Defined.

Lemma row_order_is_irrelevant_witness :
  unique_metrics (scan_metadata Sample.scenario_db) ∧
  scan_metadata Sample.scenario_db ≡ₚ scan_metadata Fixture.scenario_db_reversed ∧
  Ingestor.calculate_final_score (Some Sample.scenario_db) (Some Sample.scenario_config) 1 =
  Ingestor.calculate_final_score (Some Fixture.scenario_db_reversed)
    (Some Sample.scenario_config) 1.
Proof.
  assert (unique_metrics (scan_metadata Sample.scenario_db)) as Hu
    by (unfold unique_metrics; nodup_by_computation).
  assert (scan_metadata Sample.scenario_db ≡ₚ scan_metadata Fixture.scenario_db_reversed)
    as Hperm by apply Permutation_rev.
  split; [exact Hu|]. split; [exact Hperm|].
  exact (row_order_is_irrelevant Sample.scenario_db Fixture.scenario_db_reversed
           (Some Sample.scenario_config) 1 Hu Hperm).
Defined.

Lemma other_scans_do_not_matter_witness :
  2 ≠ 1 ∧
  Ingestor.calculate_final_score
    (Some (Ingestor.store_metadata_record 9 Sample.scenario_db 2 "coverage" "1" "sonarqube"))
    (Some Sample.scenario_config) 1 =
  Ingestor.calculate_final_score (Some Sample.scenario_db) (Some Sample.scenario_config) 1.
Proof.
  assert (2 ≠ 1) as Hne by lia.
  split; [exact Hne|].
  exact (proj1 (other_scans_do_not_matter Sample.scenario_db (Some Sample.scenario_config)
                  1 2 9 0 "coverage" "1" "sonarqube" "demo" (PyInt 0) Hne)).
Defined.


Lemma upsert_overwrites_witness :
  unique_metrics (scan_metadata Sample.scenario_db) ∧
  exists r,
    filter (fun r => (mr_scan_id r, metric_key r, metric_source r) = (1, "bugs", "sonarqube"))
      (scan_metadata
         (Ingestor.store_metadata_record 10
            (Ingestor.store_metadata_record 9 Sample.scenario_db 1 "bugs" "3" "sonarqube")
            1 "bugs" "4" "sonarqube")) = [r] ∧
    metric_value r = "4".
Proof.
  assert (unique_metrics (scan_metadata Sample.scenario_db)) as Hu
    by (unfold unique_metrics; nodup_by_computation).
  split; [exact Hu|].
  exact (proj1 (proj2 (upsert_overwrites (N := pynum) 9 10 Sample.scenario_db 1
                         "bugs" "3" "4" "sonarqube" Hu))).
Defined.

Lemma collected_values_witness :
  unique_metrics (scan_metadata Sample.history_db) ∧
  stored_value (scan_metadata (Ingestor.collect_both Fixture.fair_weather
                                 Sample.history_db 5)) 5 "overall_score" "openssf"
  = Some "6".
Proof.
  assert (unique_metrics (scan_metadata Sample.history_db)) as Hu
    by (unfold unique_metrics; nodup_by_computation).
  split; [exact Hu|].
  rewrite (proj2 (proj2 (proj2 (collected_values (N := pynum) Fixture.fair_weather
                                  Sample.history_db 5 Hu)))).
  reflexivity.
Defined.

Lemma failing_source_is_isolated_witness :
  (exists measures, Ingestor.sonarqube_reply Fixture.broken_sonarqube = Some measures ∧
                    ¬ Forall complete measures) ∧
  Ingestor.collect_both Fixture.broken_sonarqube Sample.history_db 5 =
  Ingestor.submit
    (fun db => Ingestor.collect_openssf_metrics "ghp_token" true
                 (Ingestor.Scorecard (Some "6") (Some [Fixture.measure "Signed-Releases" "-1"]))
                 20 db 5) Sample.history_db.
Proof.
  assert (exists measures, Ingestor.sonarqube_reply Fixture.broken_sonarqube = Some measures ∧
                           ¬ Forall complete measures) as Hbad.
  { eexists. split; [reflexivity|]. intros Hall.
    apply Forall_cons in Hall as [_ Hall]. apply Forall_cons in Hall as [[_ [x Hx]] _].
    discriminate. }
  split; [exact Hbad|].
  apply (proj1 (failing_source_is_isolated (N := pynum) Fixture.broken_sonarqube
                  Sample.history_db 5)).
  right. right. right. exact Hbad.
Defined.

Lemma commit_order_is_irrelevant_witness :
  unique_metrics (scan_metadata Sample.history_db) ∧
  Ingestor.calculate_final_score
    (Some (Ingestor.collect_both Fixture.fair_weather Sample.history_db 5))
    (Some Sample.scenario_config) 5 =
  Ingestor.calculate_final_score
    (Some (Ingestor.collect_both (other_order Fixture.fair_weather) Sample.history_db 5))
    (Some Sample.scenario_config) 5.
Proof.
  assert (unique_metrics (scan_metadata Sample.history_db)) as Hu
    by (unfold unique_metrics; nodup_by_computation).
  split; [exact Hu|].
  exact (proj2 (commit_order_is_irrelevant Fixture.fair_weather Sample.history_db
                  (Some Sample.scenario_config) 5 Hu)).
Defined.

Lemma fresh_scan_is_served_witness :
  exists db',
    Ingestor.process_repository Fixture.fair_weather (Some Sample.scenario_config)
      Sample.history_db "https://github.com/acme/demo" = Ok db' ∧
    Api.select_latest_scan db' "demo" =
      Some (Sample.scan 5 "demo" 500 (Some (PyFloat 19))).
Proof.
  destruct (fresh_scan_is_served Fixture.fair_weather (Some Sample.scenario_config)
              Sample.history_db "https://github.com/acme/demo" (PyFloat 19))
    as (db' & Hturn & Hsel & _).
  - reflexivity.
  - reflexivity.
  - reflexivity.
  - discriminate.
  - intros r Hr. repeat (apply elem_of_cons in Hr as [->|Hr]; [discriminate|]).
    by apply not_elem_of_nil in Hr.
  - intros r Hr Hp. repeat (apply elem_of_cons in Hr as [->|Hr]; [by vm_compute|]).
    by apply not_elem_of_nil in Hr.
  - reflexivity.
  - exists db'. split; [exact Hturn|exact Hsel].
Defined.

Lemma metadata_is_sorted_witness :
  exists v l,
    Api.get_latest_scan true Fixture.joined_db (Some Sample.scenario_config) "demo" = Ok v ∧
    Api.sv_metadata v !! "sonarqube" = Some l ∧
    Api.me_metric_key <$> l = ["bugs"; "coverage"] ∧
    key_sorted l.
Proof.
  eexists. eexists. split; [reflexivity|]. split; [reflexivity|]. split; [reflexivity|].
  eapply proj1.
  eapply (metadata_is_sorted (N := pynum) true Fixture.joined_db
            (Some Sample.scenario_config) "demo" "sonarqube"); reflexivity.
Defined.

Lemma metadata_is_complete_witness :
  exists v l e,
    Api.get_latest_scan true Fixture.joined_db (Some Sample.scenario_config) "demo" = Ok v ∧
    Sample.row 2 1 "bugs" "3" "sonarqube" ∈ scan_metadata Fixture.joined_db ∧
    Api.sv_metadata v !! "sonarqube" = Some l ∧ e ∈ l ∧
    Api.me_metric_key e = "bugs" ∧ Api.me_metric_value e = "3".
Proof.
  assert (Sample.row 2 1 "bugs" "3" "sonarqube" ∈ scan_metadata Fixture.joined_db) as Hin.
  { right. left. }
  destruct (Api.get_latest_scan true Fixture.joined_db (Some Sample.scenario_config) "demo")
    as [v|] eqn:Hv0; [|discriminate].
  assert (Api.sv_scan_id v = 1) as Hid.
  { apply get_latest_scan_Ok in Hv0 as (r & Hsel & -> & _).
    by injection Hsel as <-. }
  destruct (proj2 (metadata_is_complete (N := pynum) true Fixture.joined_db
                     (Some Sample.scenario_config) "demo" v Hv0)
              (Sample.row 2 1 "bugs" "3" "sonarqube") Hin (eq_sym Hid))
    as (l & e & Hl & He & Hk & Hv).
  exists v, l, e. split; [reflexivity|]. split; [exact Hin|].
  split; [exact Hl|]. split; [exact He|]. split; [exact Hk|exact Hv].
Defined.

Lemma ingestion_leaves_scores_null_witness :
  Ingestor.process_repository Fixture.fair_weather (Some Sample.scenario_config)
    Sample.history_db "https://github.com/acme/demo" = Ok Fixture.after_turn ∧
  metadata_scores Fixture.after_turn = metadata_scores Sample.history_db ∧
  exists v l,
    Api.get_latest_scan true Fixture.after_turn None "demo" = Ok v ∧
    Api.sv_metadata v !! "openssf" = Some l ∧
    Api.me_metric_key <$> l = ["Signed-Releases"; "overall_score"] ∧
    Forall (fun e => Api.me_score e = None) l.
Proof.
  assert (Ingestor.process_repository Fixture.fair_weather (Some Sample.scenario_config)
            Sample.history_db "https://github.com/acme/demo" = Ok Fixture.after_turn)
    as Hturn by reflexivity.
  destruct (ingestion_leaves_scores_null (N := pynum) Fixture.fair_weather
              (Some Sample.scenario_config) Sample.history_db Fixture.after_turn
              "https://github.com/acme/demo" Hturn) as [Hsame Hnull].
  split; [exact Hturn|]. split; [exact Hsame|].
  eexists. eexists. split; [reflexivity|]. split; [reflexivity|]. split; [reflexivity|].
  apply Forall_forall. intros e He.
  eapply (Hnull eq_refl true None "demo" "openssf"); [reflexivity|reflexivity|exact He].
Defined.

Lemma nameless_metric_breaks_read_witness :
  Fixture.nameless ∈ [Sample.overall "OpenSSF score"; Fixture.nameless] ∧
  Api.calculate_max_score (Some Fixture.nameless_config) = Raise (KeyError "name") ∧
  exists e,
    Api.get_latest_scan true Sample.history_db (Some Fixture.nameless_config) "demo"
      = Raise e ∧ (e = OverflowError ∨ e = KeyError "name").
Proof.
  assert (Fixture.nameless ∈ [Sample.overall "OpenSSF score"; Fixture.nameless]) as Hin.
  { right. left. }
  split; [exact Hin|]. split; [reflexivity|].
  refine (proj2 (nameless_metric_breaks_read (N := pynum) Fixture.nameless_config
                   [Sample.overall "OpenSSF score"; Fixture.nameless] Fixture.nameless
                   eq_refl Hin _ eq_refl)
            Sample.history_db "demo" (Sample.scan 2 "demo" 200 (Some (PyFloat 19))) eq_refl).
  by eexists.
Defined.

Lemma weightless_metric_breaks_scoring_witness :
  Ingestor.select_records Sample.scenario_db 1 ≠ [] ∧
  Ingestor.calculate_final_score (Some Sample.scenario_db)
    (Some Fixture.weightless_config) 1 = Raise (KeyError "weight") ∧
  Api.calculate_max_score (Some Fixture.weightless_config) = Ok (PyFloat 110).
Proof.
  assert (Ingestor.select_records Sample.scenario_db 1 ≠ []) as Hne by discriminate.
  split; [exact Hne|]. split; [|reflexivity].
  exact (proj1 (weightless_metric_breaks_scoring (N := pynum) Sample.scenario_db
                  Fixture.weightless_config 1 [Sample.overall "OpenSSF score"] []
                  Fixture.weightless "sonarqube" "coverage" (PyFloat 4, PyInt 1) (PyInt 0)
                  Hne eq_refl eq_refl eq_refl eq_refl eq_refl)).
Defined.

Lemma project_name_is_last_segment_witness :
  Ingestor.project_name_of "https://github.com/acme/demo" = "demo" ∧
  Ingestor.project_name_of "demo" = "demo" ∧
  Ingestor.project_name_of (String.append "https://github.com/acme/demo" "/") = "".
Proof.
  split; [reflexivity|]. split.
  - apply (proj1 (proj2 (project_name_is_last_segment "demo"))).
    intros Hin. repeat (apply elem_of_cons in Hin as [Hin|Hin]; [discriminate|]).
    by apply not_elem_of_nil in Hin.
  - exact (proj2 (proj2 (project_name_is_last_segment "https://github.com/acme/demo"))).
Defined.

Lemma run_without_effect_witness :
  (forall j : nat, Ingestor.db_up_create Fixture.no_database = false) ∧
  Ingestor.run_ingestion_workflow (Some Fixture.repositories_file)
    (fun _ => Fixture.no_database) (Some Sample.scenario_config) Sample.history_db
  = Ok Sample.history_db.
Proof.
  assert (forall j : nat, Ingestor.db_up_create Fixture.no_database = false) as Hdown
    by (intros j; reflexivity).
  split; [exact Hdown|].
  exact (proj2 (proj2 (run_without_effect (N := pynum) (fun _ => Fixture.no_database)
                         (Some Sample.scenario_config) Sample.history_db
                         Fixture.repositories_file)) Hdown).
Defined.

Lemma run_adds_one_scan_per_repository_witness :
  (forall j, Ingestor.db_up_create (Fixture.turn j) = true) ∧
  exists db',
    Ingestor.process_all Fixture.turn (Some Sample.scenario_config) 0 Sample.history_db
      ["https://github.com/acme/demo"; "acme/other"] = Ok db' ∧
    (fun r => (scan_id r, project_name r, scan_date r)) <$> project_scans db' =
    [(1, "demo", 100); (2, "demo", 200); (3, "demo", 300); (4, "other", 400);
     (5, "demo", 500); (6, "other", 501)].
Proof.
  assert (forall j, Ingestor.db_up_create (Fixture.turn j) = true) as Hup
    by (intros j; reflexivity).
  split; [exact Hup|].
  destruct (Ingestor.process_all Fixture.turn (Some Sample.scenario_config) 0
              Sample.history_db ["https://github.com/acme/demo"; "acme/other"])
    as [db'|e] eqn:Hrun; [|vm_compute in Hrun; discriminate Hrun].
  exists db'. split; [reflexivity|].
  rewrite (run_adds_one_scan_per_repository (N := pynum) Fixture.turn
             (Some Sample.scenario_config) Sample.history_db db'
             ["https://github.com/acme/demo"; "acme/other"] Hup Hrun).
  reflexivity.
Defined.

Lemma run_stops_at_first_exception_witness :
  Ingestor.process_all (N := pynum) Fixture.turn None 0 Sample.history_db []
    = Ok Sample.history_db ∧
  Ingestor.process_repository (N := pynum) (Fixture.turn 0) None Sample.history_db
    "https://github.com/acme/demo" = Raise FileNotFoundError ∧
  Ingestor.process_all (N := pynum) Fixture.turn None 0 Sample.history_db
    ([] ++ "https://github.com/acme/demo" :: ["acme/other"]) = Raise FileNotFoundError.
Proof.
  assert (Ingestor.process_repository (N := pynum) (Fixture.turn 0) None Sample.history_db
            "https://github.com/acme/demo" = Raise FileNotFoundError) as Hturn
    by reflexivity.
  split; [reflexivity|]. split; [exact Hturn|].
  exact (run_stops_at_first_exception (N := pynum) Fixture.turn None Sample.history_db
           Sample.history_db [] ["acme/other"]
           "https://github.com/acme/demo" FileNotFoundError eq_refl Hturn).
Defined.
